(** * Chat relay server: presence table, room broadcast and history handoff

    A shallow embedding of [server/server.js]: the Socket.IO authentication
    middleware, the [join_room], [send_message], [leave_room] and
    [disconnect] handlers, and the message-history reads (the [join_room]
    history load and [GET /api/messages/:roomId]).

    Conventions of the embedding.
    - JavaScript strings are [string]; a [Date] is its epoch value in
      milliseconds, a [Z].
    - The [Map]s [users] and [roomUsers] are finite maps keyed by strings;
      the arrays stored in [roomUsers] are lists (insertion order matters).
    - Each handler is a function from the state before the event to the state
      after it and the list of events it emits.  What the handler cannot
      decide itself (the clock, the generated message id, whether a database
      call throws) is read from an [Env] record supplied with the event.
    - A handler runs to completion before the next event.  In the in-memory
      mode no [await] of a handler suspends, so this is exact; with MongoDB
      every mutation of [users] and [roomUsers] happens before the first
      [await] of its handler. *)

From Stdlib Require Import ZArith Lia Ascii.
From stdpp Require Import gmap strings pretty list fin_maps sorting.

Local Open Scope Z_scope.
Local Open Scope string_scope.
Local Open Scope list_scope.

(** ** Data model *)

(** A document of [messageSchema], or an object pushed on [messagesStore]. *)
Record Message := mkMessage {
  msg_id : string;
  msg_roomId : string;
  msg_username : string;
  msg_userId : string;
  msg_text : string;
  msg_timestamp : Z
}.

(** A value of the [users] map: [{ userId, username, roomId }]. *)
Record UserRec := mkUserRec {
  usr_userId : string;
  usr_username : string;
  usr_roomId : string
}.

(** An entry of a [roomUsers] array: [{ userId, username, socketId }]. *)
Record Member := mkMember {
  mem_userId : string;
  mem_username : string;
  mem_socketId : string
}.

(** The payload of a verified token: [{ userId, username }]. *)
Record Decoded := mkDecoded {
  dec_userId : string;
  dec_username : string
}.

(** An admitted socket: [socket.id] and the two fields the middleware sets. *)
Record Socket := mkSocket {
  sock_id : string;
  sock_userId : string;
  sock_username : string
}.

#[global] Instance Message_eq_dec : EqDecision Message.
Proof. solve_decision. Defined.
#[global] Instance UserRec_eq_dec : EqDecision UserRec.
Proof. solve_decision. Defined.
#[global] Instance Member_eq_dec : EqDecision Member.
Proof. solve_decision. Defined.
#[global] Instance Decoded_eq_dec : EqDecision Decoded.
Proof. solve_decision. Defined.
#[global] Instance Socket_eq_dec : EqDecision Socket.
Proof. solve_decision. Defined.

(** The server state: the module-level variables of [server.js], the
    [Message] collection behind mongoose, and the part of Socket.IO the
    handlers act on (the sockets whose handlers are registered, and the
    adapter's room table that [socket.join], [socket.leave] and
    [io.to(room)] use). *)
Record State := mkState {
  mongoConnected : bool;
  messagesStore : list Message;
  mongoMessages : list Message;
  users : gmap string UserRec;
  roomUsers : gmap string (list Member);
  sockets : gmap string Socket;
  ioRooms : gmap string (gset string)
}.

(** What a handler reads from outside the program. *)
Record Env := mkEnv {
  env_now : Z;            (* new Date() *)
  env_id : string;        (* the generated _id of a new message *)
  env_save_ok : bool;     (* newMessage.save() resolves *)
  env_find_ok : bool      (* Message.find(...) resolves *)
}.

(** The server-to-client events. *)
Inductive Payload :=
| load_messages (messages : list Message)
| user_joined (username userId : string) (members : list Member)
| receive_message (userId username text : string) (timestamp : Z) (id : string)
| user_left (username userId : string) (members : list Member).

(** [socket.emit] reaches one socket; [io.to(room).emit] reaches the sockets
    that are in the adapter's room at that moment. *)
Inductive Emit :=
| SocketEmit (to : string) (p : Payload)
| RoomEmit (room : string) (recipients : gset string) (p : Payload).

(** ** Message history *)

(** [arr.sort((a, b) => new Date(a.timestamp) - new Date(b.timestamp))] and
    [.sort({ timestamp: 1 })]: ascending by timestamp; ties keep their
    order. *)
Fixpoint insert_by_timestamp (m : Message) (l : list Message) : list Message :=
  match l with
  | [] => [m]
  | x :: l' =>
      if (msg_timestamp m <=? msg_timestamp x)%Z then m :: l
      else x :: insert_by_timestamp m l'
  end.

Fixpoint sort_by_timestamp (l : list Message) : list Message :=
  match l with
  | [] => []
  | m :: l' => insert_by_timestamp m (sort_by_timestamp l')
  end.

(** [arr.filter(m => m.roomId === roomId)] and [find({ roomId })]. *)
Definition of_room (roomId : string) (l : list Message) : list Message :=
  filter (λ m, msg_roomId m = roomId) l.

(** [arr.slice(-n)]: the last [n] elements, all of them if there are fewer. *)
Definition slice_last (n : nat) (l : list Message) : list Message :=
  drop (length l - n) l.

(** The [else] branch of both history reads:
    [messagesStore.filter(...).slice(-50).sort(...)]. *)
Definition memory_history (roomId : string) (store : list Message) : list Message :=
  sort_by_timestamp (slice_last 50 (of_room roomId store)).

(** The MongoDB branch of both history reads:
    [Message.find({ roomId }).sort({ timestamp: 1 }).limit(50)]. *)
Definition mongo_history (roomId : string) (db : list Message) : list Message :=
  take 50 (sort_by_timestamp (of_room roomId db)).

(** The [try]/[catch] around the history load of [join_room]: the messages
    handed to [socket.emit('load_messages', ...)]. *)
Definition join_history (roomId : string) (env : Env) (s : State) : list Message :=
  if mongoConnected s then
    if env_find_ok env then mongo_history roomId (mongoMessages s) else []
  else memory_history roomId (messagesStore s).

(** [GET /api/messages/:roomId], after [authMiddleware] has let the request
    through: the array passed to [res.json]. *)
Definition get_messages (roomId : string) (env : Env) (s : State) : list Message :=
  if mongoConnected s then
    if env_find_ok env then mongo_history roomId (mongoMessages s) else []
  else memory_history roomId (messagesStore s).

(** ** Presence table and Socket.IO rooms *)

Definition set_users (f : gmap string UserRec → gmap string UserRec) (s : State) : State :=
  mkState (mongoConnected s) (messagesStore s) (mongoMessages s)
          (f (users s)) (roomUsers s) (sockets s) (ioRooms s).

Definition set_roomUsers
    (f : gmap string (list Member) → gmap string (list Member)) (s : State) : State :=
  mkState (mongoConnected s) (messagesStore s) (mongoMessages s)
          (users s) (f (roomUsers s)) (sockets s) (ioRooms s).

Definition set_sockets (f : gmap string Socket → gmap string Socket) (s : State) : State :=
  mkState (mongoConnected s) (messagesStore s) (mongoMessages s)
          (users s) (roomUsers s) (f (sockets s)) (ioRooms s).

Definition set_ioRooms
    (f : gmap string (gset string) → gmap string (gset string)) (s : State) : State :=
  mkState (mongoConnected s) (messagesStore s) (mongoMessages s)
          (users s) (roomUsers s) (sockets s) (f (ioRooms s)).

Definition set_messagesStore (f : list Message → list Message) (s : State) : State :=
  mkState (mongoConnected s) (f (messagesStore s)) (mongoMessages s)
          (users s) (roomUsers s) (sockets s) (ioRooms s).

Definition set_mongoMessages (f : list Message → list Message) (s : State) : State :=
  mkState (mongoConnected s) (messagesStore s) (f (mongoMessages s))
          (users s) (roomUsers s) (sockets s) (ioRooms s).

(** The sockets [io.to(roomId)] reaches: the adapter's set for the room, no
    socket when the adapter has no such room. *)
Definition io_room (roomId : string) (s : State) : gset string :=
  default ∅ (ioRooms s !! roomId).

(** [socket.join(roomId)]. *)
Definition socket_join (sid roomId : string) (s : State) : State :=
  set_ioRooms (λ rooms, <[roomId := {[sid]} ∪ default ∅ (rooms !! roomId)]> rooms) s.

(** [socket.leave(roomId)].  (The adapter also forgets a room that became
    empty, which [io.to] cannot tell from an empty one.) *)
Definition socket_leave (sid roomId : string) (s : State) : State :=
  set_ioRooms (alter (λ members, members ∖ {[sid]}) roomId) s.

(** What Socket.IO does with a closing socket before it fires [disconnect]:
    the socket leaves every room and is dropped from the namespace. *)
Definition socket_close (sid : string) (s : State) : State :=
  set_sockets (delete sid) (set_ioRooms (fmap (λ members, members ∖ {[sid]})) s).

(** [roomUsers.get(roomId) || []]. *)
Definition room_members (roomId : string) (s : State) : list Member :=
  default [] (roomUsers s !! roomId).

(** [room.findIndex(u => u.socketId === socket.id)]; [None] is [-1]. *)
Definition findIndex (sid : string) (room : list Member) : option nat :=
  fst <$> list_find (λ u, mem_socketId u = sid) room.

(** The block shared by [leave_room] and [disconnect]:
    [if (roomUsers.has(roomId)) { ...findIndex...; if (index > -1) room.splice(index, 1) }]. *)
Definition splice_member (sid roomId : string) (s : State) : State :=
  match roomUsers s !! roomId with
  | Some room =>
      match findIndex sid room with
      | Some index => set_roomUsers <[roomId := delete index room]> s
      | None => s
      end
  | None => s
  end.

(** ** The socket handlers *)

(** [socket.on('join_room', ...)], with [data = { roomId }]. *)
Definition join_room (socket : Socket) (roomId : string) (env : Env) (s : State)
    : State * list Emit :=
  let userId := sock_userId socket in
  let username := sock_username socket in
  let s1 := socket_join (sock_id socket) roomId s in
  let s2 := set_users <[sock_id socket := mkUserRec userId username roomId]> s1 in
  let s3 := match roomUsers s2 !! roomId with
            | Some _ => s2
            | None => set_roomUsers <[roomId := []]> s2
            end in
  let s4 := set_roomUsers
              <[roomId := room_members roomId s3 ++ [mkMember userId username (sock_id socket)]]>
              s3 in
  (s4, [SocketEmit (sock_id socket) (load_messages (join_history roomId env s4));
        RoomEmit roomId (io_room roomId s4)
                 (user_joined username userId (room_members roomId s4))]).

(** The body of the [try] of [send_message] up to the broadcast: build the
    message and append it to the store in use.  [None] is the exception of
    [newMessage.save()]; [messagesStore.push] does not throw. *)
Definition persist (roomId text username userId : string) (env : Env) (s : State)
    : option (State * Message) :=
  let message := mkMessage (env_id env) roomId username userId text (env_now env) in
  if mongoConnected s then
    if env_save_ok env then Some (set_mongoMessages (λ db, db ++ [message]) s, message)
    else None
  else Some (set_messagesStore (λ store, store ++ [message]) s, message).

(** [socket.on('send_message', ...)], with
    [data = { roomId, text, username, userId }]. *)
Definition send_message (socket : Socket) (roomId text username userId : string)
    (env : Env) (s : State) : State * list Emit :=
  match persist roomId text username userId env s with
  | Some (s1, message) =>
      (s1, [RoomEmit roomId (io_room roomId s1)
                     (receive_message userId username text
                                      (msg_timestamp message) (msg_id message))])
  | None => (s, [])
  end.

(** [socket.on('leave_room', ...)], with [data = { roomId, userId, username }]. *)
Definition leave_room (socket : Socket) (roomId userId username : string) (s : State)
    : State * list Emit :=
  match users s !! sock_id socket with
  | Some user =>
      let s1 := socket_leave (sock_id socket) roomId s in
      let s2 := splice_member (sock_id socket) roomId s1 in
      (s2, [RoomEmit roomId (io_room roomId s2)
                     (user_left username userId (room_members roomId s2))])
  | None => (s, [])
  end.

(** [socket.on('disconnect', ...)]. *)
Definition disconnect (socket : Socket) (s : State) : State * list Emit :=
  let '(s2, out) :=
    match users s !! sock_id socket with
    | Some user =>
        let roomId := usr_roomId user in
        let userId := usr_userId user in
        let username := usr_username user in
        let s1 := splice_member (sock_id socket) roomId s in
        (s1, [RoomEmit roomId (io_room roomId s1)
                       (user_left username userId (room_members roomId s1))])
    | None => (s, [])
    end in
  (set_users (delete (sock_id socket)) s2, out).

(** The whole of a disconnection: Socket.IO's own cleanup, then the
    [disconnect] handler. *)
Definition teardown (socket : Socket) (s : State) : State * list Emit :=
  disconnect socket (socket_close (sock_id socket) s).

(** ** Connections and the event loop *)

(** The client-to-server events with their payloads. *)
Inductive ClientEvent :=
| EvJoinRoom (roomId : string)
| EvSendMessage (roomId text username userId : string)
| EvLeaveRoom (roomId userId username : string).

(** What reaches the server: a connection attempt with the token of
    [socket.handshake.auth] ([None] when the field is absent), an event of a
    client, the close of a connection, and the resolution of
    [mongoose.connect]. *)
Inductive Input :=
| Connect (sid : string) (token : option string)
| FromClient (sid : string) (ev : ClientEvent)
| Disconnect (sid : string)
| MongoUp.

(** The handler registered for each event name. *)
Definition handle (socket : Socket) (ev : ClientEvent) (env : Env) (s : State)
    : State * list Emit :=
  match ev with
  | EvJoinRoom roomId => join_room socket roomId env s
  | EvSendMessage roomId text username userId =>
      send_message socket roomId text username userId env s
  | EvLeaveRoom roomId userId username => leave_room socket roomId userId username s
  end.

(** The server before any connection: [users] and [roomUsers] are new
    [Map]s, [messagesStore] is empty; the [Message] collection holds what
    earlier runs left in it. *)
Definition init_state (db : list Message) : State :=
  mkState false [] db ∅ ∅ ∅ ∅.

Section Server.

(** [jwt.verify(token, secret)] of the jsonwebtoken package: the decoded
    payload, [None] when it throws (bad signature, malformed or expired
    token). *)
Variable jwt_verify : string → string → option Decoded.
Variable JWT_SECRET : string.

(** [verifyToken]: the [catch] turns the exception into [null]. *)
Definition verifyToken (token : string) : option Decoded :=
  jwt_verify token JWT_SECRET.

(** The [io.use] middleware: the error handed to [next], or the socket with
    [userId] and [username] set.  [!token] holds for an absent token and for
    the empty string. *)
Definition io_use (sid : string) (token : option string) : string + Socket :=
  match token with
  | None => inl "Authentication failed: No token provided"
  | Some token =>
      if decide (token = EmptyString) then inl "Authentication failed: No token provided"
      else match verifyToken token with
           | None => inl "Authentication failed: Invalid or expired token"
           | Some decoded => inr (mkSocket sid (dec_userId decoded) (dec_username decoded))
           end
  end.

(** One turn of the event loop.  A connection whose middleware called
    [next] with an error is refused: [io.on('connection', ...)] does not run
    for it and no handler is registered.  Socket ids are allotted by
    Socket.IO, a [Connect] under an id in use does not occur and is
    skipped.  Events of a socket that is not connected reach no handler. *)
Definition server_step (i : Input) (env : Env) (s : State) : State * list Emit :=
  match i with
  | Connect sid token =>
      match io_use sid token with
      | inl _ => (s, [])
      | inr socket =>
          match sockets s !! sid with
          | Some _ => (s, [])
          | None => (set_sockets <[sid := socket]> s, [])
          end
      end
  | FromClient sid ev =>
      match sockets s !! sid with
      | Some socket => handle socket ev env s
      | None => (s, [])
      end
  | Disconnect sid =>
      match sockets s !! sid with
      | Some socket => teardown socket s
      | None => (s, [])
      end
  | MongoUp =>
      (mkState true (messagesStore s) (mongoMessages s)
               (users s) (roomUsers s) (sockets s) (ioRooms s), [])
  end.

(** A run of the event loop: the final state and everything emitted. *)
Fixpoint run (tr : list (Input * Env)) (s : State) : State * list Emit :=
  match tr with
  | [] => (s, [])
  | (i, env) :: tr' =>
      let '(s1, out1) := server_step i env s in
      let '(s2, out2) := run tr' s1 in
      (s2, out1 ++ out2)
  end.

End Server.

(** ** Properties of the presence table *)

Definition socket_ids (room : list Member) : list string := mem_socketId <$> room.

(** No membership list names a socket twice. *)
Definition membership_distinct (s : State) : Prop :=
  ∀ roomId room, roomUsers s !! roomId = Some room → NoDup (socket_ids room).

(** No socket is named by the membership lists of two rooms. *)
Definition single_room (s : State) : Prop :=
  ∀ sid r1 r2 room1 room2,
    roomUsers s !! r1 = Some room1 → roomUsers s !! r2 = Some room2 →
    sid ∈ socket_ids room1 → sid ∈ socket_ids room2 → r1 = r2.

(** The socket is named by the membership list of the room. *)
Definition listed (sid roomId : string) (s : State) : bool :=
  bool_decide (sid ∈ socket_ids (room_members roomId s)).

(** The socket is named by the membership list of a room other than [roomId]. *)
Definition listed_elsewhere (sid roomId : string) (s : State) : bool :=
  bool_decide (map_Exists (λ r room, r ≠ roomId ∧ sid ∈ socket_ids room) (roomUsers s)).

(** The discipline of the client ([main.js] sends [leave_room] for its
    current room before it joins another, and never joins the room it is
    in), as a condition on one input: a [join_room] arrives only when
    [blocked] does not hold of the socket and the room. *)
Definition join_allowed (blocked : string → string → State → bool) (i : Input) (s : State)
    : bool :=
  match i with
  | FromClient sid (EvJoinRoom roomId) => negb (blocked sid roomId s)
  | _ => true
  end.

Section Discipline.

Variable jwt_verify : string → string → option Decoded.
Variable JWT_SECRET : string.

(** Every [join_room] of the run is allowed in the state it arrives in. *)
Fixpoint joins_allowed (blocked : string → string → State → bool)
    (tr : list (Input * Env)) (s : State) : bool :=
  match tr with
  | [] => true
  | (i, env) :: tr' =>
      join_allowed blocked i s
      && joins_allowed blocked tr' (server_step jwt_verify JWT_SECRET i env s).1
  end.

(** The token is missing, or [verifyToken] turns it down (bad signature,
    malformed, expired). *)
Definition rejected (token : option string) : Prop :=
  match token with
  | None => True
  | Some t => t = EmptyString ∨ verifyToken jwt_verify JWT_SECRET t = None
  end.

End Discipline.

(** Every membership list of [after] is what is left of the list of the
    same room in [before] once some entries are taken out. *)
Definition rooms_shrink (before after : gmap string (list Member)) : Prop :=
  ∀ roomId room', after !! roomId = Some room' →
    ∃ room, before !! roomId = Some room ∧ room' `sublist_of` room.

(** The table of connected sockets is keyed by [socket.id]. *)
Definition sockets_keyed (s : State) : Prop :=
  ∀ sid socket, sockets s !! sid = Some socket → sock_id socket = sid.

(** The events of one connection, as inputs of the event loop. *)
Definition from_client (sid : string) (evs : list (ClientEvent * Env)) : list (Input * Env) :=
  (λ e, (FromClient sid e.1, e.2)) <$> evs.

(** The history as the specification words it: of the messages of the room,
    in ascending order of timestamp, the [n] most recent. *)
Definition most_recent (n : nat) (roomId : string) (stored : list Message) : list Message :=
  slice_last n (sort_by_timestamp (of_room roomId stored)).

Definition timestamps (l : list Message) : list Z := msg_timestamp <$> l.

(** ** Concrete sockets, tokens and states *)

Definition demo_secret : string := "secret".

Definition demo_verify (token secret : string) : option Decoded :=
  if decide (secret = demo_secret) then
    if decide (token = "tok-alice") then Some (mkDecoded "u1" "alice")
    else if decide (token = "tok-bob") then Some (mkDecoded "u2" "bob")
    else None
  else None.

Definition alice : Socket := mkSocket "s1" "u1" "alice".
Definition bob : Socket := mkSocket "s2" "u2" "bob".
Definition mallory : Socket := mkSocket "s1" "u666" "mallory".

Definition env0 : Env := mkEnv 1000 "msg_k3x9a" true true.
Definition env_down : Env := mkEnv 1000 "65f0c0ffee" false false.

(** Sixty messages of room 1 with timestamps 1 to 60, in this order. *)
Definition sixty : list Message :=
  (λ i, mkMessage ("m" +:+ pretty i) "1" "alice" "u1" "hello" (Z.of_nat i)) <$> seq 1 60.

Definition mongo_sixty : State :=
  mkState true [] sixty ∅ ∅ {[ "s1" := alice ]} ∅.

Definition memory_sixty : State :=
  mkState false sixty [] ∅ ∅ {[ "s1" := alice ]} ∅.

(** Alice and Bob connect; Bob joins room 1. *)
Definition bob_in_1 : list (Input * Env) :=
  [(Connect "s1" (Some "tok-alice"), env0);
   (Connect "s2" (Some "tok-bob"), env0);
   (FromClient "s2" (EvJoinRoom "1"), env0)].

Definition demo_run (tr : list (Input * Env)) : State * list Emit :=
  run demo_verify demo_secret tr (init_state []).

(** Alice joins room 1 twice. *)
Definition join_twice : list (Input * Env) :=
  [(Connect "s1" (Some "tok-alice"), env0);
   (FromClient "s1" (EvJoinRoom "1"), env0);
   (FromClient "s1" (EvJoinRoom "1"), env0)].

(** Alice joins room 1, then room 2 without leaving room 1. *)
Definition join_two_rooms : list (Input * Env) :=
  [(Connect "s1" (Some "tok-alice"), env0);
   (FromClient "s1" (EvJoinRoom "1"), env0);
   (FromClient "s1" (EvJoinRoom "2"), env0)].

(** A session of the client of [main.js]: Bob is in room 1; Alice joins
    room 1, leaves it for room 2, comes back and disconnects. *)
Definition polite_session : list (Input * Env) :=
  bob_in_1 ++
  [(FromClient "s1" (EvJoinRoom "1"), env0);
   (FromClient "s1" (EvSendMessage "1" "hi" "alice" "u1"), env0);
   (FromClient "s1" (EvLeaveRoom "1" "u1" "alice"), env0);
   (FromClient "s1" (EvJoinRoom "2"), env0);
   (MongoUp, env0);
   (FromClient "s1" (EvLeaveRoom "2" "u1" "alice"), env0);
   (FromClient "s1" (EvJoinRoom "1"), env0);
   (Disconnect "s1", env0);
   (FromClient "s1" (EvJoinRoom "1"), env0)].

(** Alice is in room 1 and Bob in room 2. *)
Definition alice_1_bob_2 : list (Input * Env) :=
  [(Connect "s1" (Some "tok-alice"), env0);
   (Connect "s2" (Some "tok-bob"), env0);
   (FromClient "s1" (EvJoinRoom "1"), env0);
   (FromClient "s2" (EvJoinRoom "2"), env0)].

(** Alice and Bob are both in room 1. *)
Definition both_in_1 : list (Input * Env) :=
  [(Connect "s1" (Some "tok-alice"), env0);
   (Connect "s2" (Some "tok-bob"), env0);
   (FromClient "s1" (EvJoinRoom "1"), env0);
   (FromClient "s2" (EvJoinRoom "1"), env0)].

(** ** Further properties of the server state *)

(** The store the handlers read and write in the current mode. *)
Definition store_in_use (s : State) : list Message :=
  if mongoConnected s then mongoMessages s else messagesStore s.

(** The socket is named by the membership list of some room. *)
Definition listed_anywhere (sid roomId : string) (s : State) : bool :=
  listed sid roomId s || listed_elsewhere sid roomId s.

(** Every entry of [users] belongs to a connected socket and carries the
    identity the middleware put on it. *)
Definition sessions_connected (s : State) : Prop :=
  ∀ sid user, users s !! sid = Some user →
    ∃ socket, sockets s !! sid = Some socket
      ∧ usr_userId user = sock_userId socket ∧ usr_username user = sock_username socket.


(** Every entry of a membership list is the entry of a connected socket:
    it carries the identity of that socket, the socket's entry in [users]
    names the room, and [io.to(roomId)] reaches the socket. *)
Definition presence_accurate (s : State) : Prop :=
  ∀ roomId m, m ∈ room_members roomId s →
    sockets s !! mem_socketId m
      = Some (mkSocket (mem_socketId m) (mem_userId m) (mem_username m))
    ∧ users s !! mem_socketId m = Some (mkUserRec (mem_userId m) (mem_username m) roomId)
    ∧ mem_socketId m ∈ io_room roomId s.

(** ** The HTTP side: bearer tokens, registration and login *)

(** [str.split(' ')]: the pieces between the spaces; a string without a
    space is its only piece. *)
Fixpoint split_space (s : string) : list string :=
  match s with
  | EmptyString => [EmptyString]
  | String c s' =>
      if decide (c = " "%char) then EmptyString :: split_space s'
      else match split_space s' with
           | piece :: pieces => String c piece :: pieces
           | [] => [String c EmptyString]
           end
  end.

Fixpoint no_space (s : string) : bool :=
  match s with
  | EmptyString => true
  | String c s' => negb (bool_decide (c = " "%char)) && no_space s'
  end.

(** [req.headers.authorization?.split(' ')[1]]; [None] is [undefined]. *)
Definition header_token (authorization : option string) : option string :=
  match authorization with
  | Some header => split_space header !! 1%nat
  | None => None
  end.

(** [!x] for a field that is a string when present. *)
Definition absent (x : option string) : bool :=
  match x with
  | Some v => bool_decide (v = EmptyString)
  | None => true
  end.

(** The body of a registration or login request. *)
Record Credentials := mkCredentials {
  cr_username : option string;
  cr_password : option string
}.

(** A user of [usersStore], or a document of [userSchema]; [su_id] is
    [user._id || user.id] and [su_password] the stored hash. *)
Record StoredUser := mkStoredUser {
  su_id : string;
  su_username : string;
  su_password : string;
  su_createdAt : Z
}.

(** What the HTTP handlers answer: [res.status(status).json({ error })],
    and [res.status(status).json({ success: true, token, user: { id, username } })]. *)
Inductive Reply :=
| ReplyError (status : nat) (error : string)
| ReplyAuth (status : nat) (token id username : string).

(** What a registration or login reads from outside the program: the clock,
    the random part of a new id, the salt bcrypt draws, and the outcome of
    the mongoose calls ([inl] is the message of the exception thrown). *)
Record AuthEnv := mkAuthEnv {
  ae_now : Z;
  ae_rand : string;
  ae_salt : string;
  ae_findOne : string + option StoredUser;
  ae_save : string + string
}.

(** A registration either answers at once or, in the in-memory mode, waits
    for [bcryptjs.hash] with a user to push on [usersStore]. *)
Inductive Registration :=
| Replied (reply : Reply)
| Pending (newUser : StoredUser).

(** [usersStore.find(u => u.username === username)]. *)
Definition find_user (username : string) (usersStore : list StoredUser) : option StoredUser :=
  snd <$> list_find (λ u, su_username u = username) usersStore.

Section Accounts.

(** The jsonwebtoken and bcryptjs packages: [jwt.verify] as above,
    [jwt.sign(payload, secret, { expiresIn })] at a given time,
    [bcryptjs.hash] with the salt it draws, [bcryptjs.compare]. *)
Variable jwt_verify : string → string → option Decoded.
Variable jwt_sign : Decoded → string → string → Z → string.
Variable bcrypt_hash : string → string → string.
Variable bcrypt_compare : string → string → bool.
Variable JWT_SECRET : string.
Variable JWT_EXPIRE : string.

(** [generateToken]. *)
Definition generateToken (userId username : string) (now : Z) : string :=
  jwt_sign (mkDecoded userId username) JWT_SECRET JWT_EXPIRE now.

(** [authMiddleware]: the status and error it answers with, or the decoded
    token it stores in [req.user] before calling [next]. *)
Definition authMiddleware (authorization : option string) : nat * string + Decoded :=
  match header_token authorization with
  | None => inl (401%nat, "No token provided")
  | Some token =>
      if decide (token = EmptyString) then inl (401%nat, "No token provided")
      else match verifyToken jwt_verify JWT_SECRET token with
           | None => inl (401%nat, "Invalid or expired token")
           | Some decoded => inr decoded
           end
  end.

(** [GET /api/messages/:roomId] with its middleware. *)
Definition api_messages (authorization : option string) (roomId : string) (env : Env)
    (s : State) : nat * string + list Message :=
  match authMiddleware authorization with
  | inl refusal => inl refusal
  | inr _ => inr (get_messages roomId env s)
  end.

(** [POST /api/auth/register] up to the first point where it waits with a
    change of [usersStore] still to make.  With MongoDB the handler answers
    without touching [usersStore].  The fields of the body are strings when
    present; [String.length] counts the characters of a string as [.length]
    counts its code units. *)
Definition register_begin (mongo : bool) (body : Credentials) (env : AuthEnv)
    (usersStore : list StoredUser) : Registration :=
  if absent (cr_username body) || absent (cr_password body)
  then Replied (ReplyError 400 "Username and password required")
  else
    let username := default EmptyString (cr_username body) in
    let password := default EmptyString (cr_password body) in
    if (String.length username <? 3)%nat
    then Replied (ReplyError 400 "Username must be at least 3 characters")
    else if (String.length password <? 4)%nat
    then Replied (ReplyError 400 "Password must be at least 4 characters")
    else if mongo then
      match ae_findOne env with
      | inl message => Replied (ReplyError 500 message)
      | inr (Some _) => Replied (ReplyError 400 "User already exists")
      | inr None =>
          match ae_save env with
          | inl message => Replied (ReplyError 500 message)
          | inr id => Replied (ReplyAuth 201 (generateToken id username (ae_now env))
                                         id username)
          end
      end
    else
      match find_user username usersStore with
      | Some _ => Replied (ReplyError 400 "User already exists")
      | None =>
          Pending (mkStoredUser ("user_" +:+ ae_rand env) username
                                (bcrypt_hash password (ae_salt env)) (ae_now env))
      end.

(** The rest of an in-memory registration, on [usersStore] as it is when
    [bcryptjs.hash] has resolved: the push and the answer. *)
Definition register_finish (newUser : StoredUser) (env : AuthEnv)
    (usersStore : list StoredUser) : list StoredUser * Reply :=
  (usersStore ++ [newUser],
   ReplyAuth 201 (generateToken (su_id newUser) (su_username newUser) (ae_now env))
             (su_id newUser) (su_username newUser)).

(** [POST /api/auth/login]; it reads [usersStore] and changes nothing. *)
Definition login (mongo : bool) (body : Credentials) (env : AuthEnv)
    (usersStore : list StoredUser) : Reply :=
  if absent (cr_username body) || absent (cr_password body)
  then ReplyError 400 "Username and password required"
  else
    let username := default EmptyString (cr_username body) in
    let password := default EmptyString (cr_password body) in
    match (if mongo then ae_findOne env else inr (find_user username usersStore)) with
    | inl message => ReplyError 500 message
    | inr None => ReplyError 401 "Invalid credentials"
    | inr (Some user) =>
        if bcrypt_compare password (su_password user)
        then ReplyAuth 200 (generateToken (su_id user) username (ae_now env))
                       (su_id user) username
        else ReplyError 401 "Invalid credentials"
    end.

End Accounts.

(** ** The client: escaping of message text *)

(** The replacement [escapeHtml] makes for one character, by its [map]. *)
Definition escape_char (c : ascii) : string :=
  if decide (c = "&"%char) then "&amp;"
  else if decide (c = "<"%char) then "&lt;"
  else if decide (c = ">"%char) then "&gt;"
  else if decide (c = "034"%char) then "&quot;"
  else if decide (c = "'"%char) then "&#039;"
  else String c EmptyString.

(** [escapeHtml(text)]: a global [replace] of each of the five characters
    ampersand, less-than, greater-than, double quote and apostrophe by the
    entity its [map] gives. *)
Fixpoint escapeHtml (text : string) : string :=
  match text with
  | EmptyString => EmptyString
  | String c text' => escape_char c +:+ escapeHtml text'
  end.

(** The characters of a string. *)
Fixpoint chars (s : string) : list ascii :=
  match s with
  | EmptyString => []
  | String c s' => c :: chars s'
  end.

(** ** Concrete accounts *)

Definition demo_sign (payload : Decoded) (secret expiresIn : string) (now : Z) : string :=
  if decide (payload = mkDecoded "u1" "alice") then "tok-alice"
  else if decide (payload = mkDecoded "u2" "bob") then "tok-bob"
  else "tok-other".

Definition demo_hash (password salt : string) : string :=
  "$2a$" +:+ salt +:+ "$" +:+ password.

Definition demo_compare (password hash : string) : bool :=
  bool_decide (hash = demo_hash password "salt").

Definition auth_env0 : AuthEnv :=
  mkAuthEnv 500 "k3x9a" "salt" (inr None) (inr "65f0c0ffee").

Definition bob_body : Credentials := mkCredentials (Some "bob") (Some "hunter2").

Definition carol_stored : StoredUser :=
  mkStoredUser "user_c" "carol" (demo_hash "tiger" "salt") 100.

Definition bob_stored : StoredUser :=
  mkStoredUser "u2" "bob" (demo_hash "hunter2" "salt") 200.

(** Three stored messages of room 1, in-memory mode. *)
Definition memory_three : State :=
  mkState false (take 3 sixty) [] ∅ ∅ {[ "s1" := alice ]} ∅.

(** ** Properties of what is emitted *)

(** [load_messages] goes to one socket, every other event to a room. *)
Definition history_private (e : Emit) : Prop :=
  match e with
  | SocketEmit _ (load_messages _) => True
  | SocketEmit _ _ => False
  | RoomEmit _ _ (load_messages _) => False
  | RoomEmit _ _ _ => True
  end.

(** A [receive_message] broadcast is the broadcast of a stored message. *)
Definition broadcast_stored (s : State) (e : Emit) : Prop :=
  match e with
  | RoomEmit roomId _ (receive_message userId username text timestamp id) =>
      let message := mkMessage id roomId username userId text timestamp in
      message ∈ messagesStore s ∨ message ∈ mongoMessages s
  | _ => True
  end.

(** * Theorems *)

(** ** Message history *)

Lemma timestamps_sublist (l k : list Message) :
  l `sublist_of` k → timestamps l `sublist_of` timestamps k.
Proof. intros H. unfold timestamps. by apply fmap_sublist. Qed.

Lemma StronglySorted_le_sublist (l k : list Z) :
  l `sublist_of` k → StronglySorted Z.le k → StronglySorted Z.le l.
Proof.
  induction 1 as [|x l k Hsub IH|x l k Hsub IH]; intros Hk.
  - constructor.
  - apply StronglySorted_cons in Hk as [Hx Hk].
    apply StronglySorted_cons. split; [|by apply IH].
    rewrite Forall_forall in Hx |- *.
    intros y Hy. apply Hx. by eapply elem_of_sublist.
  - apply StronglySorted_cons in Hk as [_ Hk]. by apply IH.
Qed.

(** Sorting a list that is already in ascending order changes nothing. *)
Lemma sort_by_timestamp_sorted (l : list Message) :
  StronglySorted Z.le (timestamps l) → sort_by_timestamp l = l.
Proof.
  induction l as [|m l IH]; [done|]. intros Hs.
  unfold timestamps in Hs. rewrite fmap_cons in Hs.
  apply StronglySorted_cons in Hs as [Hm Hl].
  simpl. rewrite (IH Hl).
  destruct l as [|x l']; [done|]. simpl.
  rewrite fmap_cons in Hm. apply Forall_cons in Hm as [Hmx _].
  apply Z.leb_le in Hmx. by rewrite Hmx.
Qed.

Lemma insert_by_timestamp_perm (m : Message) (l : list Message) :
  insert_by_timestamp m l ≡ₚ m :: l.
Proof.
  induction l as [|x l IH]; [done|]. simpl.
  destruct (msg_timestamp m <=? msg_timestamp x)%Z; [done|].
  rewrite IH. apply Permutation_swap.
Qed.

Lemma sort_by_timestamp_perm (l : list Message) : sort_by_timestamp l ≡ₚ l.
Proof.
  induction l as [|m l IH]; [done|]. simpl.
  by rewrite insert_by_timestamp_perm, IH.
Qed.

Lemma insert_by_timestamp_sorted (m : Message) (l : list Message) :
  StronglySorted Z.le (timestamps l) →
  StronglySorted Z.le (timestamps (insert_by_timestamp m l)).
Proof.
  unfold timestamps. induction l as [|x l IH]; intros Hs; simpl.
  - repeat constructor.
  - rewrite fmap_cons in Hs. apply StronglySorted_cons in Hs as [Hx Hl].
    destruct (msg_timestamp m <=? msg_timestamp x)%Z eqn:Hle.
    + apply Z.leb_le in Hle. rewrite !fmap_cons.
      apply StronglySorted_cons. split.
      * constructor; [done|].
        eapply Forall_impl; [exact Hx|]. intros; simpl in *; lia.
      * apply StronglySorted_cons. by split.
    + apply Z.leb_gt in Hle. rewrite fmap_cons.
      apply StronglySorted_cons. split; [|by apply IH].
      rewrite Forall_forall. intros t Ht.
      assert (t ∈ msg_timestamp <$> (m :: l)) as Ht'.
      { eapply elem_of_Permutation_proper; [|exact Ht].
        apply fmap_Permutation. symmetry. apply insert_by_timestamp_perm. }
      rewrite fmap_cons in Ht'. apply elem_of_cons in Ht' as [->|Ht']; [lia|].
      rewrite Forall_forall in Hx. by apply Hx.
Qed.

(** The result of the sort is in ascending order of timestamp. *)
Lemma sort_by_timestamp_ascending (l : list Message) :
  StronglySorted Z.le (timestamps (sort_by_timestamp l)).
Proof.
  induction l as [|m l IH]; simpl; [constructor|].
  by apply insert_by_timestamp_sorted.
Qed.

(** The in-memory branch: when [messagesStore] is in ascending order of
    timestamp (each message is pushed with the time of its push), the
    history is the 50 most recent messages of the room, oldest first. *)
Lemma memory_history_most_recent (roomId : string) (store : list Message) :
  StronglySorted Z.le (timestamps store) →
  memory_history roomId store = most_recent 50 roomId store.
Proof.
  intros Hs. unfold memory_history, most_recent.
  assert (StronglySorted Z.le (timestamps (of_room roomId store))) as Hroom.
  { eapply StronglySorted_le_sublist; [|exact Hs].
    apply timestamps_sublist, sublist_filter. }
  rewrite (sort_by_timestamp_sorted (of_room roomId store) Hroom).
  apply sort_by_timestamp_sorted.
  eapply StronglySorted_le_sublist; [|exact Hroom].
  apply timestamps_sublist, sublist_drop.
Qed.

(** The MongoDB branch sorts before it cuts, and cuts at the front: as soon
    as a room holds more than 50 messages (with distinct timestamps) its
    result is not the 50 most recent ones. *)
Lemma mongo_history_not_most_recent (roomId : string) (db : list Message) :
  (50 < length (of_room roomId db))%nat →
  NoDup (timestamps (of_room roomId db)) →
  mongo_history roomId db ≠ most_recent 50 roomId db.
Proof.
  intros Hlen Hnd Heq. unfold mongo_history, most_recent, slice_last in Heq.
  set (l := sort_by_timestamp (of_room roomId db)) in *.
  assert (length l = length (of_room roomId db)) as Hl.
  { unfold l. by rewrite (sort_by_timestamp_perm (of_room roomId db)). }
  assert (NoDup (timestamps l)) as Hndl.
  { unfold timestamps, l. by rewrite (sort_by_timestamp_perm (of_room roomId db)). }
  destruct (lookup_lt_is_Some_2 l 0%nat) as [m Hm]; [lia|].
  assert (take 50 l !! 0%nat = Some m) as H0.
  { rewrite lookup_take_lt; [done|lia]. }
  rewrite Heq, lookup_drop in H0.
  assert (timestamps l !! 0%nat = Some (msg_timestamp m)) as T0.
  { unfold timestamps. by rewrite list_lookup_fmap, Hm. }
  assert (timestamps l !! (length l - 50 + 0)%nat = Some (msg_timestamp m)) as T1.
  { unfold timestamps. by rewrite list_lookup_fmap, H0. }
  pose proof (NoDup_lookup _ _ _ _ Hndl T0 T1). lia.
Qed.

(** The history read over HTTP is the one loaded on join. *)
Lemma get_messages_join_history (roomId : string) (env : Env) (s : State) :
  get_messages roomId env s = join_history roomId env s.
Proof. reflexivity. Qed.

(** C1, at a room of sixty stored messages with MongoDB connected: the
    history delivered on join, and equally the HTTP read, holds the
    messages with timestamps 1 to 50, the fifty oldest, where the fifty most
    recent are those with timestamps 11 to 60.  The in-memory branch
    delivers the fifty most recent ones on the same messages. *)
Theorem mongo_history_delivers_oldest :
  (join_room alice "1" env0 mongo_sixty).2 !! 0%nat
    = Some (SocketEmit "s1" (load_messages (take 50 sixty)))
  ∧ get_messages "1" env0 mongo_sixty = take 50 sixty
  ∧ timestamps (take 50 sixty) = Z.of_nat <$> seq 1 50
  ∧ timestamps (most_recent 50 "1" (mongoMessages mongo_sixty)) = Z.of_nat <$> seq 11 50
  ∧ join_history "1" env0 mongo_sixty ≠ most_recent 50 "1" (mongoMessages mongo_sixty)
  ∧ join_history "1" env0 memory_sixty = most_recent 50 "1" (messagesStore memory_sixty).
Proof.
  split_and!; try (vm_compute; reflexivity).
  intros H. vm_compute in H. discriminate H.
Qed.

(** ** The presence table under each handler *)

Ltac unfold_state :=
  unfold teardown, socket_close, socket_leave, socket_join,
    set_users, set_roomUsers, set_sockets, set_ioRooms,
    set_messagesStore, set_mongoMessages, io_room, room_members in *;
  simpl in *.

Lemma rooms_shrink_refl (m : gmap string (list Member)) : rooms_shrink m m.
Proof. intros r room Hr. by exists room. Qed.

Lemma membership_distinct_shrink (s s' : State) :
  rooms_shrink (roomUsers s) (roomUsers s') →
  membership_distinct s → membership_distinct s'.
Proof.
  intros Hsh Hinv r room' Hr.
  destruct (Hsh r room' Hr) as (room & Hroom & Hsub).
  eapply sublist_NoDup; [by eapply Hinv|].
  unfold socket_ids. by apply fmap_sublist.
Qed.

Lemma single_room_shrink (s s' : State) :
  rooms_shrink (roomUsers s) (roomUsers s') →
  single_room s → single_room s'.
Proof.
  intros Hsh Hinv sid r1 r2 room1' room2' H1 H2 Hin1 Hin2.
  destruct (Hsh r1 room1' H1) as (room1 & Hr1 & Hsub1).
  destruct (Hsh r2 room2' H2) as (room2 & Hr2 & Hsub2).
  apply (Hinv sid r1 r2 room1 room2 Hr1 Hr2).
  - eapply elem_of_sublist; [exact Hin1|]. unfold socket_ids. by apply fmap_sublist.
  - eapply elem_of_sublist; [exact Hin2|]. unfold socket_ids. by apply fmap_sublist.
Qed.

Lemma findIndex_None (sid : string) (room : list Member) :
  findIndex sid room = None ↔ sid ∉ socket_ids room.
Proof.
  unfold findIndex, socket_ids. rewrite fmap_None, list_find_None, Forall_forall.
  rewrite list_elem_of_fmap. split.
  - intros H (u & -> & Hu). by apply (H u).
  - intros H u Hu Heq. apply H. exists u. by split.
Qed.

Lemma splice_member_roomUsers (sid roomId : string) (s : State) :
  rooms_shrink (roomUsers s) (roomUsers (splice_member sid roomId s)).
Proof.
  unfold splice_member.
  destruct (roomUsers s !! roomId) as [room|] eqn:Hroom; [|apply rooms_shrink_refl].
  destruct (findIndex sid room) as [index|]; [|apply rooms_shrink_refl].
  intros r room' Hr. unfold_state.
  destruct (decide (roomId = r)) as [->|Hne].
  - rewrite lookup_insert_eq in Hr. injection Hr as <-.
    exists room. split; [done|]. apply sublist_delete.
  - rewrite lookup_insert_ne in Hr by done. by exists room'.
Qed.

(** [splice_member] touches nothing but [roomUsers]. *)
Lemma splice_member_frame (sid roomId : string) (s : State) :
  let s' := splice_member sid roomId s in
  mongoConnected s' = mongoConnected s ∧ messagesStore s' = messagesStore s ∧
  mongoMessages s' = mongoMessages s ∧ users s' = users s ∧
  sockets s' = sockets s ∧ ioRooms s' = ioRooms s.
Proof.
  unfold splice_member.
  destruct (roomUsers s !! roomId) as [room|]; [|done].
  by destruct (findIndex sid room).
Qed.

(** Nothing is spliced when the socket is not in the list of the room. *)
Lemma splice_member_absent (sid roomId : string) (s : State) :
  sid ∉ socket_ids (room_members roomId s) → splice_member sid roomId s = s.
Proof.
  unfold splice_member, room_members.
  destruct (roomUsers s !! roomId) as [room|]; [|done]. simpl.
  intros H. apply findIndex_None in H. by rewrite H.
Qed.

(** [splice_member] reads [roomUsers] only. *)
Lemma splice_member_roomUsers_ext (sid roomId : string) (s t : State) :
  roomUsers s = roomUsers t →
  roomUsers (splice_member sid roomId s) = roomUsers (splice_member sid roomId t).
Proof.
  unfold splice_member. intros H. rewrite H.
  destruct (roomUsers t !! roomId) as [room|]; [|done].
  destruct (findIndex sid room); [|done].
  unfold set_roomUsers. simpl. by rewrite H.
Qed.

Lemma join_room_roomUsers (socket : Socket) (roomId : string) (env : Env) (s : State) :
  roomUsers (join_room socket roomId env s).1
  = <[roomId := room_members roomId s
                ++ [mkMember (sock_userId socket) (sock_username socket) (sock_id socket)]]>
      (roomUsers s).
Proof.
  unfold join_room. unfold_state.
  destruct (roomUsers s !! roomId) as [room|] eqn:Hroom; simpl.
  - by rewrite Hroom.
  - by rewrite lookup_insert_eq, insert_insert_eq.
Qed.

Lemma join_room_sockets (socket : Socket) (roomId : string) (env : Env) (s : State) :
  sockets (join_room socket roomId env s).1 = sockets s.
Proof. unfold join_room. unfold_state. by destruct (roomUsers s !! roomId). Qed.

Lemma send_message_roomUsers socket roomId text username userId env (s : State) :
  roomUsers (send_message socket roomId text username userId env s).1 = roomUsers s
  ∧ users (send_message socket roomId text username userId env s).1 = users s
  ∧ sockets (send_message socket roomId text username userId env s).1 = sockets s
  ∧ ioRooms (send_message socket roomId text username userId env s).1 = ioRooms s.
Proof.
  unfold send_message, persist.
  destruct (mongoConnected s); [destruct (env_save_ok env)|]; done.
Qed.

Lemma leave_room_shrinks socket roomId userId username (s : State) :
  rooms_shrink (roomUsers s) (roomUsers (leave_room socket roomId userId username s).1).
Proof.
  unfold leave_room.
  destruct (users s !! sock_id socket); [|apply rooms_shrink_refl]. simpl.
  apply (splice_member_roomUsers _ _ (socket_leave (sock_id socket) roomId s)).
Qed.

Lemma disconnect_shrinks socket (s : State) :
  rooms_shrink (roomUsers s) (roomUsers (disconnect socket s).1).
Proof.
  unfold disconnect.
  destruct (users s !! sock_id socket); [|apply rooms_shrink_refl]. simpl.
  apply splice_member_roomUsers.
Qed.

Lemma leave_room_sockets socket roomId userId username (s : State) :
  sockets (leave_room socket roomId userId username s).1 = sockets s.
Proof.
  unfold leave_room. destruct (users s !! sock_id socket); [|done].
  apply (splice_member_frame (sock_id socket) roomId
           (socket_leave (sock_id socket) roomId s)).
Qed.

Lemma disconnect_sockets socket (s : State) :
  sockets (disconnect socket s).1 = sockets s.
Proof.
  unfold disconnect. destruct (users s !! sock_id socket) as [user|]; [|done].
  apply (splice_member_frame (sock_id socket) (usr_roomId user) s).
Qed.

Lemma teardown_shrinks socket (s : State) :
  rooms_shrink (roomUsers s) (roomUsers (teardown socket s).1).
Proof. apply (disconnect_shrinks socket (socket_close (sock_id socket) s)). Qed.

(** ** Runs of the event loop *)

Section EventLoop.

Variable jwt_verify : string → string → option Decoded.
Variable JWT_SECRET : string.

Local Abbreviation step := (server_step jwt_verify JWT_SECRET).
Local Abbreviation runs := (run jwt_verify JWT_SECRET).
Local Abbreviation allowed := (joins_allowed jwt_verify JWT_SECRET).

Lemma io_use_sock_id (sid : string) (token : option string) (socket : Socket) :
  io_use jwt_verify JWT_SECRET sid token = inr socket → sock_id socket = sid.
Proof.
  unfold io_use. destruct token as [t|]; [|done].
  destruct (decide (t = EmptyString)); [done|].
  destruct (verifyToken jwt_verify JWT_SECRET t); [|done].
  by intros [= <-].
Qed.

Lemma step_sockets_keyed (i : Input) (env : Env) (s : State) :
  sockets_keyed s → sockets_keyed (step i env s).1.
Proof.
  intros Hk. destruct i as [sid token|sid ev|sid|]; simpl.
  - destruct (io_use jwt_verify JWT_SECRET sid token) as [err|socket] eqn:Huse; [done|].
    destruct (sockets s !! sid) eqn:Hsid; [done|]. simpl.
    intros sid' socket'. unfold_state. destruct (decide (sid = sid')) as [<-|Hne].
    + rewrite lookup_insert_eq. intros [= <-]. by eapply io_use_sock_id.
    + rewrite lookup_insert_ne by done. apply Hk.
  - destruct (sockets s !! sid) as [socket|]; [|done].
    destruct ev as [roomId|roomId text username userId|roomId userId username];
      unfold handle.
    + unfold sockets_keyed. rewrite join_room_sockets. exact Hk.
    + unfold sockets_keyed.
      rewrite (proj1 (proj2 (proj2 (send_message_roomUsers
                 socket roomId text username userId env s)))). exact Hk.
    + unfold sockets_keyed. rewrite leave_room_sockets. exact Hk.
  - destruct (sockets s !! sid) as [socket|]; [|done].
    unfold sockets_keyed, teardown. rewrite disconnect_sockets.
    intros sid' socket'. unfold_state.
    intros [_ H]%lookup_delete_Some. by apply Hk.
  - exact Hk.
Qed.

(** A step that is no [join_room] only takes entries out of membership
    lists. *)
Lemma step_shrinks (i : Input) (env : Env) (s : State) :
  (∀ sid roomId, i ≠ FromClient sid (EvJoinRoom roomId)) →
  rooms_shrink (roomUsers s) (roomUsers (step i env s).1).
Proof.
  intros Hi. destruct i as [sid token|sid ev|sid|]; simpl.
  - destruct (io_use jwt_verify JWT_SECRET sid token); [apply rooms_shrink_refl|].
    destruct (sockets s !! sid); apply rooms_shrink_refl.
  - destruct (sockets s !! sid) as [socket|]; [|apply rooms_shrink_refl].
    destruct ev as [roomId|roomId text username userId|roomId userId username];
      unfold handle.
    + by destruct (Hi sid roomId).
    + rewrite (proj1 (send_message_roomUsers socket roomId text username userId env s)).
      apply rooms_shrink_refl.
    + apply leave_room_shrinks.
  - destruct (sockets s !! sid) as [socket|]; [|apply rooms_shrink_refl].
    apply teardown_shrinks.
  - apply rooms_shrink_refl.
Qed.

Lemma step_from_client (sid : string) (ev : ClientEvent) (env : Env) (s : State) :
  step (FromClient sid ev) env s
  = match sockets s !! sid with
    | Some socket => handle socket ev env s
    | None => (s, [])
    end.
Proof. reflexivity. Qed.

Lemma join_or_other (i : Input) :
  (∃ sid roomId, i = FromClient sid (EvJoinRoom roomId))
  ∨ (∀ sid roomId, i ≠ FromClient sid (EvJoinRoom roomId)).
Proof.
  destruct i as [| sid [roomId| |] | |]; try (right; intros; discriminate).
  left. by exists sid, roomId.
Qed.

Lemma step_membership_distinct (i : Input) (env : Env) (s : State) :
  join_allowed listed i s = true → sockets_keyed s →
  membership_distinct s → membership_distinct (step i env s).1.
Proof.
  intros Hok Hk Hinv.
  destruct (join_or_other i) as [(sid & roomId & ->)|Hno].
  - rewrite step_from_client.
    destruct (sockets s !! sid) as [socket|] eqn:Hsock; [|done].
    unfold handle, join_allowed in *.
    apply negb_true_iff, bool_decide_eq_false in Hok.
    rewrite <- (Hk _ _ Hsock) in Hok.
    intros r room. rewrite join_room_roomUsers.
    destruct (decide (roomId = r)) as [<-|Hne].
    + rewrite lookup_insert_eq. intros [= <-].
      unfold socket_ids in *. rewrite fmap_app. simpl.
      apply NoDup_app. split_and!.
      * unfold room_members. destruct (roomUsers s !! roomId) as [room|] eqn:Hr; simpl.
        -- by apply (Hinv roomId).
        -- constructor.
      * intros x Hx ->%list_elem_of_singleton. by apply Hok.
      * apply NoDup_singleton.
    + rewrite lookup_insert_ne by done. apply Hinv.
  - eapply membership_distinct_shrink; [|exact Hinv].
    by apply step_shrinks.
Qed.

Lemma not_listed_elsewhere (sid roomId : string) (s : State) :
  listed_elsewhere sid roomId s = false →
  ∀ r room, roomUsers s !! r = Some room → sid ∈ socket_ids room → r = roomId.
Proof.
  intros H%bool_decide_eq_false r room Hr Hin.
  destruct (decide (r = roomId)) as [|Hne]; [done|].
  destruct H. by exists r, room.
Qed.

Lemma step_single_room (i : Input) (env : Env) (s : State) :
  join_allowed listed_elsewhere i s = true → sockets_keyed s →
  single_room s → single_room (step i env s).1.
Proof.
  intros Hok Hk Hinv.
  destruct (join_or_other i) as [(sid & roomId & ->)|Hno].
  - rewrite step_from_client.
    destruct (sockets s !! sid) as [socket|] eqn:Hsock; [|done].
    unfold handle, join_allowed in *.
    apply negb_true_iff in Hok. rewrite <- (Hk _ _ Hsock) in Hok.
    pose proof (not_listed_elsewhere _ _ _ Hok) as Hout.
    assert (∀ x room, x ∈ socket_ids (room_members roomId s
              ++ [mkMember (sock_userId socket) (sock_username socket) (sock_id socket)]) →
            ∀ r, roomUsers s !! r = Some room → x ∈ socket_ids room → r = roomId) as Hnew.
    { intros x room Hx r Hr Hin. unfold socket_ids in Hx. rewrite fmap_app in Hx.
      apply elem_of_app in Hx as [Hx|Hx].
      - unfold room_members in Hx.
        destruct (roomUsers s !! roomId) as [room0|] eqn:Hr0; simpl in Hx.
        + by apply (Hinv x r roomId room room0).
        + by apply elem_of_nil in Hx.
      - simpl in Hx. apply list_elem_of_singleton in Hx as ->. by eapply Hout. }
    intros x r1 r2 room1 room2. rewrite join_room_roomUsers.
    destruct (decide (roomId = r1)) as [<-|Hne1];
      destruct (decide (roomId = r2)) as [<-|Hne2]; [done|..].
    + rewrite lookup_insert_eq, lookup_insert_ne by done.
      intros [= <-] H2 Hin1 Hin2. symmetry. by eapply Hnew.
    + rewrite lookup_insert_eq, lookup_insert_ne by done.
      intros H1 [= <-] Hin1 Hin2. by eapply Hnew.
    + rewrite !lookup_insert_ne by done. apply Hinv.
  - eapply single_room_shrink; [|exact Hinv].
    by apply step_shrinks.
Qed.

Lemma run_app (tr1 tr2 : list (Input * Env)) (s : State) :
  runs (tr1 ++ tr2) s
  = ((runs tr2 (runs tr1 s).1).1, (runs tr1 s).2 ++ (runs tr2 (runs tr1 s).1).2).
Proof.
  revert s. induction tr1 as [|[i env] tr1 IH]; intros s; simpl.
  - by destruct (runs tr2 s).
  - destruct (step i env s) as [s1 out1]. rewrite IH.
    destruct (runs tr1 s1) as [s2 out2]. simpl.
    destruct (runs tr2 s2) as [s3 out3]. simpl. by rewrite app_assoc.
Qed.

Lemma joins_allowed_prefix blocked (pre tr : list (Input * Env)) (s : State) :
  pre `prefix_of` tr → allowed blocked tr s = true → allowed blocked pre s = true.
Proof.
  intros [rest ->]. revert s. induction pre as [|[i env] pre IH]; intros s; simpl; [done|].
  intros [Hi Hrest]%andb_true_iff. rewrite Hi. simpl. by apply IH.
Qed.

(** An invariant of the allowed steps holds after every allowed run. *)
Lemma run_invariant (blocked : string → string → State → bool) (I : State → Prop) :
  (∀ i env s, join_allowed blocked i s = true → sockets_keyed s → I s → I (step i env s).1) →
  ∀ tr s, allowed blocked tr s = true → sockets_keyed s → I s → I (runs tr s).1.
Proof.
  intros Hstep tr. induction tr as [|[i env] tr IH]; intros s Hok Hk Hs; simpl; [done|].
  simpl in Hok. apply andb_true_iff in Hok as [Hi Hrest].
  pose proof (Hstep i env s Hi Hk Hs) as Hs1.
  pose proof (step_sockets_keyed i env s Hk) as Hk1.
  destruct (step i env s) as [s1 out1]. simpl in *.
  pose proof (IH s1 Hrest Hk1 Hs1) as Hs2.
  by destruct (runs tr s1) as [s2 out2].
Qed.

Lemma init_state_keyed (db : list Message) : sockets_keyed (init_state db).
Proof. intros sid socket H. unfold init_state in H. simpl in H. by rewrite lookup_empty in H. Qed.

(** C2, amended: in every run from the initial state in which a [join_room]
    arrives only while the socket is not in the membership list of the room
    it names, no membership list names a socket twice, at any point of the
    run. *)
Theorem membership_distinct_in_allowed_runs
    (db : list Message) (tr pre : list (Input * Env)) :
  allowed listed tr (init_state db) = true →
  pre `prefix_of` tr →
  membership_distinct (runs pre (init_state db)).1.
Proof.
  intros Hok Hpre.
  apply (run_invariant listed membership_distinct).
  - apply step_membership_distinct.
  - by eapply joins_allowed_prefix.
  - apply init_state_keyed.
  - intros r room H. unfold init_state in H. simpl in H. by rewrite lookup_empty in H.
Qed.

(** C3, amended: in every run from the initial state in which a [join_room]
    arrives only while the socket is in the membership list of no other
    room, no socket is named by the lists of two rooms, at any point of the
    run.  The handler itself takes nothing out: [join_room] leaves the list
    of every other room as it was. *)
Theorem single_room_in_allowed_runs
    (db : list Message) (tr pre : list (Input * Env)) :
  allowed listed_elsewhere tr (init_state db) = true →
  pre `prefix_of` tr →
  single_room (runs pre (init_state db)).1
  ∧ ∀ socket roomId other env s,
      other ≠ roomId →
      roomUsers (join_room socket roomId env s).1 !! other = roomUsers s !! other.
Proof.
  intros Hok Hpre. split.
  - apply (run_invariant listed_elsewhere single_room).
    + apply step_single_room.
    + by eapply joins_allowed_prefix.
    + apply init_state_keyed.
    + intros sid r1 r2 room1 room2 H. unfold init_state in H. simpl in H. by rewrite lookup_empty in H.
  - intros socket roomId other env s Hne.
    rewrite join_room_roomUsers. by rewrite lookup_insert_ne.
Qed.

Lemma run_from_client_refused (sid : string) (evs : list (ClientEvent * Env)) (s : State) :
  sockets s !! sid = None → runs (from_client sid evs) s = (s, []).
Proof.
  intros Hsid. induction evs as [|[ev env] evs IH]; [done|].
  unfold from_client in *. rewrite fmap_cons. cbn [run fst snd].
  rewrite step_from_client, Hsid. by rewrite IH.
Qed.

(** C9: a connection attempt whose token is missing, or that [verifyToken]
    turns down, is refused by the middleware; the attempt changes nothing
    of the state (no entry of [users], of [roomUsers] or of the table of
    sockets) and emits nothing, and neither does any sequence of events sent
    on that connection afterwards. *)
Theorem rejected_connection_creates_nothing
    (sid : string) (token : option string) (env : Env)
    (evs : list (ClientEvent * Env)) (s : State) :
  rejected jwt_verify JWT_SECRET token →
  sockets s !! sid = None →
  (∃ err, io_use jwt_verify JWT_SECRET sid token = inl err)
  ∧ step (Connect sid token) env s = (s, [])
  ∧ runs ((Connect sid token, env) :: from_client sid evs) s = (s, []).
Proof.
  intros Hrej Hsid.
  assert (∃ err, io_use jwt_verify JWT_SECRET sid token = inl err) as [err Herr].
  { unfold io_use, rejected in *. destruct token as [t|]; [|by eexists].
    destruct (decide (t = EmptyString)); [by eexists|].
    destruct Hrej as [Ht|Hv]; [done|]. rewrite Hv. by eexists. }
  assert (step (Connect sid token) env s = (s, [])) as Hstep.
  { unfold server_step. by rewrite Herr. }
  split_and!; [by exists err|done|].
  cbn [run]. rewrite Hstep. by rewrite (run_from_client_refused sid evs s Hsid).
Qed.

End EventLoop.

Lemma membership_distinct_in_allowed_runs_witness :
  joins_allowed demo_verify demo_secret listed polite_session (init_state []) = true
  ∧ polite_session `prefix_of` polite_session
  ∧ membership_distinct (demo_run polite_session).1.
Proof.
  assert (joins_allowed demo_verify demo_secret listed polite_session (init_state []) = true)
    as Hok by (vm_compute; reflexivity).
  split_and!; [exact Hok|reflexivity|].
  exact (membership_distinct_in_allowed_runs demo_verify demo_secret []
           polite_session polite_session Hok (reflexivity _)).
Defined.

(** C2 as stated fails: after two [join_room] events for room 1 on one
    connection the membership list of room 1 names socket s1 twice. *)
Lemma join_twice_lists_socket_twice :
  roomUsers (demo_run join_twice).1 !! "1"
    = Some [mkMember "u1" "alice" "s1"; mkMember "u1" "alice" "s1"]
  ∧ ¬ membership_distinct (demo_run join_twice).1.
Proof.
  assert (roomUsers (demo_run join_twice).1 !! "1"
          = Some [mkMember "u1" "alice" "s1"; mkMember "u1" "alice" "s1"]) as H
    by (vm_compute; reflexivity).
  split; [exact H|].
  intros Hinv. specialize (Hinv _ _ H). simpl in Hinv.
  apply NoDup_cons in Hinv as [Hnotin _]. apply Hnotin. left.
Qed.

Lemma single_room_in_allowed_runs_witness :
  joins_allowed demo_verify demo_secret listed_elsewhere polite_session (init_state []) = true
  ∧ polite_session `prefix_of` polite_session
  ∧ single_room (demo_run polite_session).1.
Proof.
  assert (joins_allowed demo_verify demo_secret listed_elsewhere polite_session
            (init_state []) = true) as Hok by (vm_compute; reflexivity).
  split_and!; [exact Hok|reflexivity|].
  exact (proj1 (single_room_in_allowed_runs demo_verify demo_secret []
                  polite_session polite_session Hok (reflexivity _))).
Defined.

(** C3 as stated fails: a connection in room 1 that issues [join_room] for
    room 2 is afterwards in the membership lists of both rooms. *)
Lemma join_two_rooms_lists_socket_in_both :
  roomUsers (demo_run join_two_rooms).1 !! "1" = Some [mkMember "u1" "alice" "s1"]
  ∧ roomUsers (demo_run join_two_rooms).1 !! "2" = Some [mkMember "u1" "alice" "s1"]
  ∧ ¬ single_room (demo_run join_two_rooms).1.
Proof.
  assert (roomUsers (demo_run join_two_rooms).1 !! "1" = Some [mkMember "u1" "alice" "s1"])
    as H1 by (vm_compute; reflexivity).
  assert (roomUsers (demo_run join_two_rooms).1 !! "2" = Some [mkMember "u1" "alice" "s1"])
    as H2 by (vm_compute; reflexivity).
  split_and!; [exact H1|exact H2|].
  intros Hinv.
  assert ("1" = "2") as Heq; [|discriminate Heq].
  apply (Hinv "s1" "1" "2" _ _ H1 H2); simpl; left.
Qed.

Lemma rejected_connection_creates_nothing_witness :
  let s := (demo_run bob_in_1).1 in
  let evs := [(EvJoinRoom "1", env0); (EvSendMessage "1" "hi" "bob" "u2", env0)] in
  rejected demo_verify demo_secret (Some "tok-forged")
  ∧ sockets s !! "s9" = None
  ∧ run demo_verify demo_secret
        ((Connect "s9" (Some "tok-forged"), env0) :: from_client "s9" evs) s = (s, []).
Proof.
  intros s evs.
  assert (rejected demo_verify demo_secret (Some "tok-forged")) as Hrej
    by (right; vm_compute; reflexivity).
  assert (sockets s !! "s9" = None) as Hsid by (vm_compute; reflexivity).
  split_and!; [exact Hrej|exact Hsid|].
  exact (proj2 (proj2 (rejected_connection_creates_nothing demo_verify demo_secret
                         "s9" (Some "tok-forged") env0 evs s Hrej Hsid))).
Defined.

(** ** The handlers one by one *)

Lemma persist_None roomId text username userId env (s : State) :
  persist roomId text username userId env s = None
  ↔ mongoConnected s = true ∧ env_save_ok env = false.
Proof.
  unfold persist. destruct (mongoConnected s), (env_save_ok env);
    split; try done; intros [? ?]; done.
Qed.

Lemma persist_Some roomId text username userId env (s s1 : State) (message : Message) :
  persist roomId text username userId env s = Some (s1, message) →
  message = mkMessage (env_id env) roomId username userId text (env_now env)
  ∧ (if mongoConnected s
     then mongoMessages s1 = mongoMessages s ++ [message] ∧ messagesStore s1 = messagesStore s
     else messagesStore s1 = messagesStore s ++ [message] ∧ mongoMessages s1 = mongoMessages s)
  ∧ mongoConnected s1 = mongoConnected s ∧ users s1 = users s ∧ roomUsers s1 = roomUsers s
  ∧ sockets s1 = sockets s ∧ ioRooms s1 = ioRooms s.
Proof.
  unfold persist.
  destruct (mongoConnected s) eqn:Hm; [destruct (env_save_ok env); [|done]|];
    intros Heq; injection Heq as Hs1 Hmsg; subst s1 message;
    unfold_state; rewrite ?Hm; done.
Qed.

(** C4, amended: [send_message] is processed whatever room the connection
    is in, or none: whenever the append succeeds the message is stored
    under the room, the text and the identity of the payload, and
    [receive_message] goes to the sockets that are in that room;
    the presence table is not consulted and not changed. *)
Theorem send_message_relayed_when_stored
    (socket : Socket) (roomId text username userId : string) (env : Env)
    (s s1 : State) (message : Message) :
  persist roomId text username userId env s = Some (s1, message) →
  send_message socket roomId text username userId env s
    = (s1, [RoomEmit roomId (io_room roomId s)
                     (receive_message userId username text (env_now env) (env_id env))])
  ∧ message = mkMessage (env_id env) roomId username userId text (env_now env)
  ∧ (if mongoConnected s
     then mongoMessages s1 = mongoMessages s ++ [message]
     else messagesStore s1 = messagesStore s ++ [message])
  ∧ users s1 = users s ∧ roomUsers s1 = roomUsers s.
Proof.
  intros Hp. unfold send_message. rewrite Hp.
  destruct (persist_Some _ _ _ _ _ _ _ _ Hp) as (-> & Hstore & _ & Hu & Hr & _ & Hio).
  split_and!; [|done| |done|done].
  - unfold io_room. by rewrite Hio.
  - destruct (mongoConnected s); by destruct Hstore.
Qed.

(** C5: when the append fails nothing is broadcast and the state is the one
    before the event; every broadcast of [send_message] is the
    [receive_message] of a message whose append succeeded; and in both cases
    [users], [roomUsers], the connected sockets and their rooms stay as they
    were. *)
Theorem broadcast_only_after_append
    (socket : Socket) (roomId text username userId : string) (env : Env) (s : State) :
  let r := send_message socket roomId text username userId env s in
  (persist roomId text username userId env s = None → r = (s, []))
  ∧ (∀ e, e ∈ r.2 →
       ∃ message,
         persist roomId text username userId env s = Some (r.1, message)
         ∧ e = RoomEmit roomId (io_room roomId r.1)
                 (receive_message userId username text
                                  (msg_timestamp message) (msg_id message)))
  ∧ users r.1 = users s ∧ roomUsers r.1 = roomUsers s
  ∧ sockets r.1 = sockets s ∧ ioRooms r.1 = ioRooms s.
Proof.
  intros r.
  destruct (send_message_roomUsers socket roomId text username userId env s)
    as (Hr & Hu & Hs & Hio).
  split_and!; try done.
  - intros Hp. unfold r, send_message. by rewrite Hp.
  - unfold r, send_message.
    destruct (persist roomId text username userId env s) as [[s1 message]|]; simpl.
    + intros e ->%list_elem_of_singleton. by exists message.
    + intros e He. by apply elem_of_nil in He.
Qed.

(** C6, amended: [leave_room] for a room whose membership list does not
    name the socket changes neither [users] nor any membership list; when the
    socket has no entry in [users] (it has joined no room) the handler does
    nothing at all and broadcasts nothing. *)
Theorem leave_room_of_non_member
    (socket : Socket) (roomId userId username : string) (s : State) :
  sock_id socket ∉ socket_ids (room_members roomId s) →
  let r := leave_room socket roomId userId username s in
  users r.1 = users s
  ∧ roomUsers r.1 = roomUsers s
  ∧ (users s !! sock_id socket = None → r = (s, [])).
Proof.
  intros Hout r. unfold r, leave_room.
  destruct (users s !! sock_id socket) as [user|]; [|done]. simpl.
  rewrite splice_member_absent; [done|].
  exact Hout.
Qed.

(** C7: [send_message] and [leave_room] do not read the identity that the
    middleware put on the socket: with the same payload in the same state
    they return the same state and the same broadcasts for any two sockets
    of the same id; the stored message and both broadcasts carry the
    [userId] and [username] of the payload. *)
Theorem payload_identity_is_relayed
    (socket socket' : Socket) (roomId text username userId : string) (env : Env)
    (s : State) :
  sock_id socket' = sock_id socket →
  send_message socket' roomId text username userId env s
    = send_message socket roomId text username userId env s
  ∧ leave_room socket' roomId userId username s = leave_room socket roomId userId username s
  ∧ (∀ s1 message,
       persist roomId text username userId env s = Some (s1, message) →
       msg_userId message = userId ∧ msg_username message = username
       ∧ (send_message socket roomId text username userId env s).2
         = [RoomEmit roomId (io_room roomId s1)
                     (receive_message userId username text
                                      (msg_timestamp message) (msg_id message))])
  ∧ (∀ user,
       users s !! sock_id socket = Some user →
       ∃ recipients members,
         (leave_room socket roomId userId username s).2
         = [RoomEmit roomId recipients (user_left username userId members)]).
Proof.
  intros Hid. split_and!.
  - reflexivity.
  - unfold leave_room. by rewrite Hid.
  - intros s1 message Hp. unfold send_message. rewrite Hp. simpl.
    by destruct (persist_Some _ _ _ _ _ _ _ _ Hp) as (-> & _).
  - intros user Hu. unfold leave_room. rewrite Hu. simpl. eauto.
Qed.

Lemma set_users_delete_twice (sid : string) (s : State) :
  set_users (delete sid) (set_users (delete sid) s) = set_users (delete sid) s.
Proof. unfold set_users. simpl. by rewrite delete_delete_eq. Qed.

Lemma set_users_delete_absent (sid : string) (s : State) :
  users s !! sid = None → set_users (delete sid) s = s.
Proof. intros H. destruct s. unfold set_users. simpl in *. by rewrite delete_id. Qed.

Lemma disconnect_unknown (socket : Socket) (s : State) :
  users s !! sock_id socket = None → disconnect socket s = (s, []).
Proof.
  intros H. unfold disconnect. rewrite H. by rewrite set_users_delete_absent.
Qed.

Lemma disconnect_users (socket : Socket) (s : State) :
  users (disconnect socket s).1 = delete (sock_id socket) (users s).
Proof.
  unfold disconnect. destruct (users s !! sock_id socket) as [user|]; [|done].
  unfold set_users. simpl.
  by rewrite (proj1 (proj2 (proj2 (proj2
                (splice_member_frame (sock_id socket) (usr_roomId user) s))))).
Qed.

Lemma disconnect_ioRooms (socket : Socket) (s : State) :
  ioRooms (disconnect socket s).1 = ioRooms s.
Proof.
  unfold disconnect. destruct (users s !! sock_id socket) as [user|]; [|done].
  apply (splice_member_frame (sock_id socket) (usr_roomId user) s).
Qed.

Lemma leave_twice (sid : string) (rooms : gmap string (gset string)) :
  (λ members : gset string, members ∖ {[sid]}) <$>
    ((λ members : gset string, members ∖ {[sid]}) <$> rooms)
  = (λ members : gset string, members ∖ {[sid]}) <$> rooms.
Proof.
  apply map_eq. intros r. rewrite !lookup_fmap.
  destruct (rooms !! r) as [members|]; [|done]. simpl.
  by rewrite difference_twice_L.
Qed.

(** Closing a socket that Socket.IO has closed before changes nothing. *)
Lemma socket_close_closed (sid : string) (s t : State) :
  sockets t = sockets (socket_close sid s) →
  ioRooms t = ioRooms (socket_close sid s) →
  socket_close sid t = t.
Proof.
  destruct t. unfold_state. intros -> ->.
  by rewrite delete_delete_eq, leave_twice.
Qed.

(** C8: the [disconnect] handler run a second time for the same socket
    returns the state of the first run and broadcasts nothing, and so does
    the whole teardown (Socket.IO's cleanup and the handler); for a socket
    without an entry in [users] the handler returns the state unchanged and
    broadcasts nothing. *)
Theorem disconnect_idempotent (socket : Socket) (s : State) :
  disconnect socket (disconnect socket s).1 = ((disconnect socket s).1, [])
  ∧ teardown socket (teardown socket s).1 = ((teardown socket s).1, [])
  ∧ (users s !! sock_id socket = None → disconnect socket s = (s, [])).
Proof.
  assert (∀ t, disconnect socket (disconnect socket t).1 = ((disconnect socket t).1, []))
    as Htwice.
  { intros t. apply disconnect_unknown.
    rewrite disconnect_users. apply lookup_delete_eq. }
  split_and!.
  - apply Htwice.
  - unfold teardown.
    rewrite (socket_close_closed (sock_id socket) s).
    + apply Htwice.
    + apply disconnect_sockets.
    + apply disconnect_ioRooms.
  - apply disconnect_unknown.
Qed.

Lemma io_room_splice_member (sid roomId r : string) (s : State) :
  io_room r (splice_member sid roomId s) = io_room r s.
Proof.
  unfold io_room.
  by rewrite (proj2 (proj2 (proj2 (proj2 (proj2 (splice_member_frame sid roomId s)))))).
Qed.

Lemma io_room_socket_close (sid r : string) (s : State) :
  io_room r (socket_close sid s) = io_room r s ∖ {[sid]}.
Proof.
  unfold_state. rewrite lookup_fmap.
  destruct (ioRooms s !! r); simpl; [done|]. by rewrite empty_difference_L.
Qed.

Lemma io_room_socket_leave (sid r : string) (s : State) :
  io_room r (socket_leave sid r s) = io_room r s ∖ {[sid]}.
Proof.
  unfold_state. rewrite lookup_alter_eq.
  destruct (ioRooms s !! r); simpl; [done|]. by rewrite empty_difference_L.
Qed.

(** C10: for a socket with an entry in [users], the broadcast of a
    disconnection is the broadcast that [leave_room] makes from the same
    state when its payload names the room and the identity of that entry:
    the same [user_left] event, with the same [username], [userId] and list
    of remaining members, to the same sockets (those in the room other than
    the leaving one); and both leave the same membership lists. *)
Theorem disconnect_broadcast_as_leave (socket : Socket) (user : UserRec) (s : State) :
  users s !! sock_id socket = Some user →
  let roomId := usr_roomId user in
  let left := leave_room socket roomId (usr_userId user) (usr_username user) s in
  (teardown socket s).2 = left.2
  ∧ roomUsers (teardown socket s).1 = roomUsers left.1
  ∧ left.2 = [RoomEmit roomId (io_room roomId s ∖ {[sock_id socket]})
                       (user_left (usr_username user) (usr_userId user)
                                  (room_members roomId left.1))].
Proof.
  intros Hu roomId left. unfold left, teardown, disconnect, leave_room.
  replace (users (socket_close (sock_id socket) s)) with (users s) by done.
  rewrite Hu. fold roomId. cbn [fst snd].
  assert (roomUsers (splice_member (sock_id socket) roomId (socket_close (sock_id socket) s))
          = roomUsers (splice_member (sock_id socket) roomId
                         (socket_leave (sock_id socket) roomId s))) as Hrooms.
  { by apply splice_member_roomUsers_ext. }
  rewrite !io_room_splice_member, io_room_socket_close, io_room_socket_leave.
  unfold room_members. rewrite Hrooms. done.
Qed.

(** ** The theorems at concrete inputs *)

(** C4 as stated fails: Alice is connected and in no room, Bob is in room
    1; Alice's [send_message] for room 1 is stored and broadcast to Bob. *)
Lemma outsider_message_is_relayed :
  let s := (demo_run bob_in_1).1 in
  let r := send_message alice "1" "hi" "alice" "u1" env0 s in
  sockets s !! "s1" = Some alice
  ∧ users s !! "s1" = None
  ∧ listed "s1" "1" s = false
  ∧ elements (io_room "1" s) = ["s2"]
  ∧ messagesStore s = []
  ∧ messagesStore r.1 = [mkMessage "msg_k3x9a" "1" "alice" "u1" "hi" 1000]
  ∧ r.2 = [RoomEmit "1" (io_room "1" s) (receive_message "u1" "alice" "hi" 1000 "msg_k3x9a")]
  ∧ r ≠ (s, []).
Proof.
  intros s r. split_and!; try (vm_compute; reflexivity).
  intros Heq. apply (f_equal snd) in Heq. vm_compute in Heq. discriminate Heq.
Qed.

Lemma send_message_relayed_when_stored_witness :
  let s := (demo_run bob_in_1).1 in
  let message := mkMessage "msg_k3x9a" "1" "alice" "u1" "hi" 1000 in
  let s1 := set_messagesStore (λ store, store ++ [message]) s in
  persist "1" "hi" "alice" "u1" env0 s = Some (s1, message)
  ∧ send_message alice "1" "hi" "alice" "u1" env0 s
    = (s1, [RoomEmit "1" (io_room "1" s) (receive_message "u1" "alice" "hi" 1000 "msg_k3x9a")]).
Proof.
  intros s message s1.
  assert (persist "1" "hi" "alice" "u1" env0 s = Some (s1, message)) as Hp by reflexivity.
  split; [exact Hp|].
  exact (proj1 (send_message_relayed_when_stored alice "1" "hi" "alice" "u1" env0
                  s s1 message Hp)).
Defined.

Lemma broadcast_only_after_append_witness :
  persist "1" "hi" "alice" "u1" env_down mongo_sixty = None
  ∧ send_message alice "1" "hi" "alice" "u1" env_down mongo_sixty = (mongo_sixty, []).
Proof.
  assert (persist "1" "hi" "alice" "u1" env_down mongo_sixty = None) as Hp by reflexivity.
  split; [exact Hp|].
  exact (proj1 (broadcast_only_after_append alice "1" "hi" "alice" "u1" env_down mongo_sixty)
           Hp).
Defined.

(** C6 as stated fails: Alice is in room 1 and Bob in room 2; Alice's
    [leave_room] for room 2, of which she is no member, changes no
    membership list but broadcasts [user_left] to room 2, that is to Bob. *)
Lemma leave_room_of_other_room_is_broadcast :
  let s := (demo_run alice_1_bob_2).1 in
  let r := leave_room alice "2" "u1" "alice" s in
  sockets s !! "s1" = Some alice
  ∧ room_members "2" s = [mkMember "u2" "bob" "s2"]
  ∧ listed "s1" "2" s = false
  ∧ roomUsers r.1 = roomUsers s
  ∧ elements (io_room "2" r.1) = ["s2"]
  ∧ r.2 = [RoomEmit "2" (io_room "2" r.1)
                    (user_left "alice" "u1" [mkMember "u2" "bob" "s2"])]
  ∧ r.2 ≠ [].
Proof.
  intros s r. split_and!; try (vm_compute; reflexivity).
  intros Heq. vm_compute in Heq. discriminate Heq.
Qed.

Lemma leave_room_of_non_member_witness :
  let s := (demo_run bob_in_1).1 in
  (sock_id alice ∉ socket_ids (room_members "1" s))
  ∧ users s !! sock_id alice = None
  ∧ leave_room alice "1" "u1" "alice" s = (s, []).
Proof.
  intros s.
  assert (sock_id alice ∉ socket_ids (room_members "1" s)) as Hout.
  { apply (bool_decide_eq_false_1 (sock_id alice ∈ socket_ids (room_members "1" s))).
    vm_compute. reflexivity. }
  assert (users s !! sock_id alice = None) as Hu by (vm_compute; reflexivity).
  split_and!; [exact Hout|exact Hu|].
  exact (proj2 (proj2 (leave_room_of_non_member alice "1" "u1" "alice" s Hout)) Hu).
Defined.

Lemma payload_identity_is_relayed_witness :
  let s := (demo_run both_in_1).1 in
  sock_id mallory = sock_id alice
  ∧ send_message mallory "1" "hi" "bob" "u2" env0 s
    = send_message alice "1" "hi" "bob" "u2" env0 s
  ∧ leave_room mallory "1" "u2" "bob" s = leave_room alice "1" "u2" "bob" s.
Proof.
  intros s.
  assert (sock_id mallory = sock_id alice) as Hid by reflexivity.
  pose proof (payload_identity_is_relayed alice mallory "1" "hi" "bob" "u2" env0 s Hid)
    as (Hsend & Hleave & _).
  split_and!; [exact Hid|exact Hsend|exact Hleave].
Defined.

(** The broadcasts of the two events of C7 in a concrete state: Alice, whose
    token says [u1]/[alice], sends and leaves under Bob's name; the stored
    message and both events carry Bob's. *)
Lemma payload_identity_example :
  let s := (demo_run both_in_1).1 in
  let sent := send_message alice "1" "hi" "bob" "u2" env0 s in
  messagesStore sent.1 = [mkMessage "msg_k3x9a" "1" "bob" "u2" "hi" 1000]
  ∧ sent.2 = [RoomEmit "1" (io_room "1" s) (receive_message "u2" "bob" "hi" 1000 "msg_k3x9a")]
  ∧ elements (io_room "1" s) = ["s1"; "s2"]
  ∧ ∃ recipients,
      (leave_room alice "1" "u2" "bob" s).2
      = [RoomEmit "1" recipients (user_left "bob" "u2" [mkMember "u2" "bob" "s2"])]
      ∧ elements recipients = ["s2"].
Proof.
  intros s sent. split_and!; try (vm_compute; reflexivity).
  eexists. split; vm_compute; reflexivity.
Qed.

Lemma disconnect_idempotent_witness :
  let s := (demo_run both_in_1).1 in
  let s1 := (disconnect alice s).1 in
  users s !! "s1" = Some (mkUserRec "u1" "alice" "1")
  ∧ users s1 !! "s1" = None
  ∧ room_members "1" s1 = [mkMember "u2" "bob" "s2"]
  ∧ disconnect alice s1 = (s1, [])
  ∧ teardown alice (teardown alice s).1 = ((teardown alice s).1, []).
Proof.
  intros s s1.
  pose proof (disconnect_idempotent alice s) as (Hhandler & Hteardown & _).
  split_and!; [vm_compute; reflexivity..|exact Hhandler|exact Hteardown].
Defined.

Lemma disconnect_broadcast_as_leave_witness :
  let s := (demo_run both_in_1).1 in
  users s !! sock_id alice = Some (mkUserRec "u1" "alice" "1")
  ∧ (teardown alice s).2 = (leave_room alice "1" "u1" "alice" s).2
  ∧ roomUsers (teardown alice s).1 = roomUsers (leave_room alice "1" "u1" "alice" s).1.
Proof.
  intros s.
  assert (users s !! sock_id alice = Some (mkUserRec "u1" "alice" "1")) as Hu
    by (vm_compute; reflexivity).
  pose proof (disconnect_broadcast_as_leave alice _ s Hu) as (Hout & Hrooms & _).
  split_and!; [exact Hu|exact Hout|exact Hrooms].
Defined.

(** The broadcast of C10 in a concrete state: Alice and Bob are in room 1
    and Alice's connection closes. *)
Lemma disconnect_broadcast_example :
  let s := (demo_run both_in_1).1 in
  ∃ recipients,
    (run demo_verify demo_secret [(Disconnect "s1", env0)] s).2
    = [RoomEmit "1" recipients (user_left "alice" "u1" [mkMember "u2" "bob" "s2"])]
    ∧ elements recipients = ["s2"].
Proof. intros s. eexists. split; vm_compute; reflexivity. Qed.

(** * Further properties *)

(** ** History reads *)

Lemma slice_last_length (n : nat) (l : list Message) : (length (slice_last n l) ≤ n)%nat.
Proof. unfold slice_last. rewrite length_drop. lia. Qed.

Lemma sort_by_timestamp_length (l : list Message) :
  length (sort_by_timestamp l) = length l.
Proof. by rewrite (sort_by_timestamp_perm l). Qed.

Lemma join_history_cases (roomId : string) (env : Env) (s : State) :
  join_history roomId env s = []
  ∨ join_history roomId env s = mongo_history roomId (store_in_use s)
    ∧ mongoConnected s = true ∧ env_find_ok env = true
  ∨ join_history roomId env s = memory_history roomId (store_in_use s)
    ∧ mongoConnected s = false.
Proof.
  unfold join_history, store_in_use.
  destruct (mongoConnected s); [destruct (env_find_ok env)|]; auto.
Qed.

(** X1: a history read, on join or over HTTP, never returns more than 50
    messages. *)
Theorem history_at_most_50 (roomId : string) (env : Env) (s : State) :
  (length (join_history roomId env s) ≤ 50)%nat
  ∧ (length (get_messages roomId env s) ≤ 50)%nat.
Proof.
  change (get_messages roomId env s) with (join_history roomId env s).
  assert (length (join_history roomId env s) ≤ 50)%nat as H; [|done].
  destruct (join_history_cases roomId env s) as [->|[[-> _]|[-> _]]].
  - simpl. lia.
  - unfold mongo_history. rewrite length_take. lia.
  - unfold memory_history. rewrite sort_by_timestamp_length. apply slice_last_length.
Qed.

(** X2: a history read returns only messages of the requested room, each
    taken from the store in use. *)
Theorem history_of_room_only (roomId : string) (env : Env) (s : State) (m : Message) :
  m ∈ join_history roomId env s ∨ m ∈ get_messages roomId env s →
  msg_roomId m = roomId ∧ m ∈ store_in_use s.
Proof.
  change (get_messages roomId env s) with (join_history roomId env s). intros Hm.
  assert (m ∈ join_history roomId env s) as H by (by destruct Hm). clear Hm.
  assert (m ∈ of_room roomId (store_in_use s)) as Hroom.
  { destruct (join_history_cases roomId env s) as [He|[[He _]|[He _]]];
      rewrite He in H.
    - by apply elem_of_nil in H.
    - unfold mongo_history in H.
      eapply elem_of_sublist in H; [|apply sublist_take].
      by rewrite (sort_by_timestamp_perm _) in H.
    - unfold memory_history in H.
      rewrite (sort_by_timestamp_perm _) in H.
      eapply elem_of_sublist; [exact H|apply sublist_drop]. }
  unfold of_room in Hroom. by apply list_elem_of_filter in Hroom.
Qed.

(** X3: a history read is in ascending order of timestamp. *)
Theorem history_ascending (roomId : string) (env : Env) (s : State) :
  StronglySorted Z.le (timestamps (join_history roomId env s))
  ∧ StronglySorted Z.le (timestamps (get_messages roomId env s)).
Proof.
  change (get_messages roomId env s) with (join_history roomId env s).
  assert (StronglySorted Z.le (timestamps (join_history roomId env s))) as H; [|done].
  destruct (join_history_cases roomId env s) as [->|[[-> _]|[-> _]]].
  - constructor.
  - unfold mongo_history.
    eapply StronglySorted_le_sublist; [|apply sort_by_timestamp_ascending].
    apply timestamps_sublist, sublist_take.
  - apply sort_by_timestamp_ascending.
Qed.

(** X4: while a room holds at most 50 messages, a history read that does
    not fail returns all of them, oldest first, in either mode. *)
Theorem history_complete_up_to_50 (roomId : string) (env : Env) (s : State) :
  (length (of_room roomId (store_in_use s)) ≤ 50)%nat →
  (mongoConnected s = true → env_find_ok env = true) →
  join_history roomId env s = sort_by_timestamp (of_room roomId (store_in_use s))
  ∧ join_history roomId env s ≡ₚ of_room roomId (store_in_use s).
Proof.
  intros Hlen Hfind.
  assert (join_history roomId env s = sort_by_timestamp (of_room roomId (store_in_use s)))
    as Heq.
  { unfold join_history, store_in_use in *. destruct (mongoConnected s).
    - rewrite Hfind by done. unfold mongo_history.
      apply take_ge. by rewrite sort_by_timestamp_length.
    - unfold memory_history, slice_last.
      replace (length (of_room roomId (messagesStore s)) - 50)%nat with 0%nat by lia.
      by rewrite drop_0. }
  split; [exact Heq|]. rewrite Heq. apply sort_by_timestamp_perm.
Qed.

(** ** Sending and the history *)

Lemma of_room_snoc_same (roomId : string) (l : list Message) (m : Message) :
  msg_roomId m = roomId → of_room roomId (l ++ [m]) = of_room roomId l ++ [m].
Proof.
  intros Hm. unfold of_room. rewrite filter_app. f_equal.
  rewrite filter_cons_True by done. by rewrite filter_nil.
Qed.

Lemma of_room_snoc_other (roomId : string) (l : list Message) (m : Message) :
  msg_roomId m ≠ roomId → of_room roomId (l ++ [m]) = of_room roomId l.
Proof.
  intros Hm. unfold of_room. rewrite filter_app.
  rewrite filter_cons_False by done. by rewrite filter_nil, app_nil_r.
Qed.

Lemma timestamps_snoc_sorted (l : list Message) (m : Message) :
  StronglySorted Z.le (timestamps l) →
  Forall (λ x, (msg_timestamp x ≤ msg_timestamp m)%Z) l →
  StronglySorted Z.le (timestamps (l ++ [m])).
Proof.
  intros Hs Hle. unfold timestamps in *. rewrite fmap_app.
  apply StronglySorted_app. split_and!; [|done|repeat constructor].
  intros t1 t2 (x & -> & Hx)%list_elem_of_fmap H2. simpl in H2.
  apply list_elem_of_singleton in H2 as ->.
  rewrite Forall_forall in Hle. by apply Hle.
Qed.

(** X5: in the in-memory mode, with [messagesStore] in the order of its
    timestamps and a clock that has not gone back, a message that has just
    been sent to a room is the last message of the history that room
    delivers next. *)
Theorem sent_message_closes_history
    (socket : Socket) (roomId text username userId : string) (env env' : Env) (s : State) :
  mongoConnected s = false →
  StronglySorted Z.le (timestamps (messagesStore s)) →
  Forall (λ m, (msg_timestamp m ≤ env_now env)%Z) (messagesStore s) →
  last (join_history roomId env' (send_message socket roomId text username userId env s).1)
  = Some (mkMessage (env_id env) roomId username userId text (env_now env)).
Proof.
  intros Hmem Hs Hnow.
  set (m := mkMessage (env_id env) roomId username userId text (env_now env)).
  assert ((send_message socket roomId text username userId env s).1
          = set_messagesStore (λ store, store ++ [m]) s) as ->.
  { unfold send_message, persist. by rewrite Hmem. }
  unfold join_history. unfold_state. rewrite Hmem.
  assert (StronglySorted Z.le (timestamps (messagesStore s ++ [m]))) as Hs'.
  { by apply timestamps_snoc_sorted. }
  rewrite (memory_history_most_recent roomId _ Hs').
  unfold most_recent. rewrite of_room_snoc_same by done.
  rewrite sort_by_timestamp_sorted.
  - unfold slice_last. rewrite drop_app_le.
    + apply last_snoc.
    + rewrite length_app. simpl. lia.
  - rewrite <- (of_room_snoc_same roomId _ m) by done.
    eapply StronglySorted_le_sublist; [|exact Hs'].
    apply timestamps_sublist, sublist_filter.
Qed.

(** X6: a message sent to one room leaves the history of every other room
    as it was, whether or not the append succeeds. *)
Theorem send_message_keeps_other_histories
    (socket : Socket) (roomId other text username userId : string) (env env' : Env)
    (s : State) :
  other ≠ roomId →
  join_history other env' (send_message socket roomId text username userId env s).1
  = join_history other env' s.
Proof.
  intros Hne. unfold send_message, persist, join_history.
  destruct (mongoConnected s) eqn:Hm; [destruct (env_save_ok env)|]; unfold_state;
    rewrite ?Hm; try done.
  - destruct (env_find_ok env'); [|done]. unfold mongo_history.
    by rewrite of_room_snoc_other by (simpl; congruence).
  - unfold memory_history. by rewrite of_room_snoc_other by (simpl; congruence).
Qed.

(** ** Joining, leaving and closing *)

Lemma join_room_users (socket : Socket) (roomId : string) (env : Env) (s : State) :
  users (join_room socket roomId env s).1
  = <[sock_id socket := mkUserRec (sock_userId socket) (sock_username socket) roomId]>
      (users s).
Proof. unfold join_room. unfold_state. by destruct (roomUsers s !! roomId). Qed.

Lemma join_room_ioRooms (socket : Socket) (roomId : string) (env : Env) (s : State) :
  ioRooms (join_room socket roomId env s).1
  = <[roomId := {[sock_id socket]} ∪ io_room roomId s]> (ioRooms s).
Proof. unfold join_room. unfold_state. by destruct (roomUsers s !! roomId). Qed.

Lemma join_room_stores (socket : Socket) (roomId : string) (env : Env) (s : State) :
  mongoConnected (join_room socket roomId env s).1 = mongoConnected s
  ∧ messagesStore (join_room socket roomId env s).1 = messagesStore s
  ∧ mongoMessages (join_room socket roomId env s).1 = mongoMessages s.
Proof. unfold join_room. unfold_state. by destruct (roomUsers s !! roomId). Qed.

Lemma join_room_members (socket : Socket) (roomId : string) (env : Env) (s : State) :
  room_members roomId (join_room socket roomId env s).1
  = room_members roomId s
    ++ [mkMember (sock_userId socket) (sock_username socket) (sock_id socket)].
Proof.
  unfold room_members at 1. rewrite join_room_roomUsers. by rewrite lookup_insert_eq.
Qed.

Lemma join_room_io_room (socket : Socket) (roomId : string) (env : Env) (s : State) :
  io_room roomId (join_room socket roomId env s).1 = {[sock_id socket]} ∪ io_room roomId s.
Proof.
  unfold io_room at 1. rewrite join_room_ioRooms. by rewrite lookup_insert_eq.
Qed.

Lemma join_room_emits (socket : Socket) (roomId : string) (env : Env) (s : State) :
  (join_room socket roomId env s).2
  = [SocketEmit (sock_id socket) (load_messages (join_history roomId env s));
     RoomEmit roomId ({[sock_id socket]} ∪ io_room roomId s)
       (user_joined (sock_username socket) (sock_userId socket)
          (room_members roomId s
           ++ [mkMember (sock_userId socket) (sock_username socket) (sock_id socket)]))].
Proof.
  pose proof (join_room_members socket roomId env s) as Hm.
  pose proof (join_room_io_room socket roomId env s) as Hio.
  pose proof (join_room_stores socket roomId env s) as (Hc & Hs & Hd).
  unfold join_room in *. cbn [fst snd] in *.
  rewrite Hm, Hio. unfold join_history. by rewrite Hc, Hs, Hd.
Qed.

(** X7: in the in-memory mode [join_room] appends the socket, under the
    identity of its token, to the end of the membership list of the room and
    records the room in [users]; it sends [load_messages] with the history
    of the room to the joining socket alone, and [user_joined] with the new
    membership list to the sockets of the room, the joining one included. *)
Theorem join_room_effect (socket : Socket) (roomId : string) (env : Env) (s : State) :
  mongoConnected s = false →
  let entry := mkMember (sock_userId socket) (sock_username socket) (sock_id socket) in
  let r := join_room socket roomId env s in
  room_members roomId r.1 = room_members roomId s ++ [entry]
  ∧ users r.1 !! sock_id socket
    = Some (mkUserRec (sock_userId socket) (sock_username socket) roomId)
  ∧ sock_id socket ∈ io_room roomId r.1
  ∧ r.2 = [SocketEmit (sock_id socket)
             (load_messages (memory_history roomId (messagesStore s)));
           RoomEmit roomId (io_room roomId r.1)
             (user_joined (sock_username socket) (sock_userId socket)
                          (room_members roomId r.1))].
Proof.
  intros Hmem entry r. unfold r, entry.
  rewrite join_room_emits, join_room_members, join_room_io_room, join_room_users.
  split_and!; [done|apply lookup_insert_eq|set_solver|].
  unfold join_history. by rewrite Hmem.
Qed.

Lemma findIndex_snoc (sid : string) (room : list Member) (m : Member) :
  sid ∉ socket_ids room → mem_socketId m = sid →
  findIndex sid (room ++ [m]) = Some (length room).
Proof.
  intros Hout Hm. unfold findIndex.
  assert (list_find (λ u, mem_socketId u = sid) (room ++ [m]) = Some (length room, m))
    as ->; [|done].
  apply list_find_Some. split_and!.
  - by rewrite lookup_app_r, Nat.sub_diag by lia.
  - done.
  - intros j y Hj Hlt Hy. apply Hout. unfold socket_ids.
    rewrite lookup_app_l in Hj by done.
    apply list_elem_of_fmap. exists y. split; [done|].
    by eapply list_elem_of_lookup_2.
Qed.

Lemma delete_snoc (room : list Member) (m : Member) :
  delete (length room) (room ++ [m]) = room.
Proof.
  rewrite delete_take_drop, take_app_length.
  rewrite drop_ge by (rewrite length_app; simpl; lia). apply app_nil_r.
Qed.

Lemma leave_room_users (socket : Socket) (roomId userId username : string) (s : State) :
  users (leave_room socket roomId userId username s).1 = users s.
Proof.
  unfold leave_room. destruct (users s !! sock_id socket); [|done].
  apply (splice_member_frame (sock_id socket) roomId
           (socket_leave (sock_id socket) roomId s)).
Qed.

Lemma leave_room_io_room (socket : Socket) (roomId userId username : string)
    (user : UserRec) (s : State) :
  users s !! sock_id socket = Some user →
  io_room roomId (leave_room socket roomId userId username s).1
  = io_room roomId s ∖ {[sock_id socket]}.
Proof.
  intros Hu. unfold leave_room. rewrite Hu. cbn [fst].
  by rewrite io_room_splice_member, io_room_socket_leave.
Qed.

(** X8: when a socket that the membership list of a room does not name joins
    the room and then leaves it, the list is what it was before the join,
    the lists of the other rooms have not changed, and [user_left] goes, with
    that list, to the sockets of the room other than the leaving one. *)
Theorem join_then_leave_restores_room
    (socket : Socket) (roomId userId username : string) (env : Env) (s : State) :
  sock_id socket ∉ socket_ids (room_members roomId s) →
  let joined := (join_room socket roomId env s).1 in
  let left := leave_room socket roomId userId username joined in
  room_members roomId left.1 = room_members roomId s
  ∧ (∀ other, other ≠ roomId → roomUsers left.1 !! other = roomUsers s !! other)
  ∧ left.2 = [RoomEmit roomId (io_room roomId s ∖ {[sock_id socket]})
                       (user_left username userId (room_members roomId s))].
Proof.
  intros Hout joined left.
  set (entry := mkMember (sock_userId socket) (sock_username socket) (sock_id socket)).
  assert (users joined !! sock_id socket
          = Some (mkUserRec (sock_userId socket) (sock_username socket) roomId)) as Hu.
  { unfold joined. rewrite join_room_users. apply lookup_insert_eq. }
  assert (roomUsers left.1 = <[roomId := room_members roomId s]> (roomUsers s)) as Hrooms.
  { unfold left, leave_room. rewrite Hu. cbn [fst].
    unfold splice_member.
    replace (roomUsers (socket_leave (sock_id socket) roomId joined))
      with (roomUsers joined) by done.
    unfold joined at 1. rewrite join_room_roomUsers, lookup_insert_eq.
    fold entry. rewrite (findIndex_snoc _ _ entry Hout eq_refl), delete_snoc.
    unfold set_roomUsers, socket_leave, set_ioRooms. cbn [roomUsers].
    unfold joined. rewrite join_room_roomUsers. apply insert_insert_eq. }
  assert (room_members roomId left.1 = room_members roomId s) as Hmembers.
  { unfold room_members at 1. by rewrite Hrooms, lookup_insert_eq. }
  split_and!.
  - exact Hmembers.
  - intros other Hne. rewrite Hrooms. by rewrite lookup_insert_ne.
  - pose proof (leave_room_io_room socket roomId userId username _ joined Hu) as Hio.
    fold left in Hio. rewrite <- Hmembers.
    assert (io_room roomId left.1 = io_room roomId s ∖ {[sock_id socket]}) as <-.
    { rewrite Hio. unfold joined. rewrite join_room_io_room.
      by rewrite difference_union_distr_l_L, difference_diag_L, (left_id_L ∅ (∪)). }
    unfold left, leave_room. by rewrite Hu.
Qed.

(** X9: [leave_room] keeps the socket's entry in [users], so a
    disconnection that follows it announces the departure a second time:
    both events are [user_left] broadcasts to the room of the entry, to the
    same sockets. *)
Theorem leave_then_disconnect_notifies_twice
    (socket : Socket) (user : UserRec) (userId username : string) (s : State) :
  users s !! sock_id socket = Some user →
  let roomId := usr_roomId user in
  let left := leave_room socket roomId userId username s in
  let closed := teardown socket left.1 in
  users left.1 !! sock_id socket = Some user
  ∧ left.2 = [RoomEmit roomId (io_room roomId s ∖ {[sock_id socket]})
                (user_left username userId (room_members roomId left.1))]
  ∧ closed.2 = [RoomEmit roomId (io_room roomId s ∖ {[sock_id socket]})
                  (user_left (usr_username user) (usr_userId user)
                             (room_members roomId closed.1))].
Proof.
  intros Hu roomId left closed.
  assert (users left.1 !! sock_id socket = Some user) as Hu'.
  { unfold left. by rewrite leave_room_users. }
  pose proof (leave_room_io_room socket roomId userId username user s Hu) as Hio.
  fold left in Hio.
  split_and!; [exact Hu'| |].
  - rewrite <- Hio. unfold left, leave_room. by rewrite Hu.
  - unfold closed, teardown, disconnect.
    replace (users (socket_close (sock_id socket) left.1)) with (users left.1) by done.
    rewrite Hu'. fold roomId. cbn [fst snd].
    rewrite io_room_splice_member, io_room_socket_close, Hio.
    by rewrite difference_twice_L.
Qed.

(** ** Invariants of the event loop *)

Lemma findIndex_Some (sid : string) (room : list Member) (index : nat) :
  findIndex sid room = Some index →
  ∃ u, mem_socketId u = sid
    ∧ room = take index room ++ u :: drop (S index) room
    ∧ delete index room = take index room ++ drop (S index) room.
Proof.
  unfold findIndex. intros H. apply fmap_Some in H as ([i u] & Hfind & ->).
  apply list_find_Some in Hfind as (Hlook & Hu & _). simpl.
  exists u. split_and!; [done| |apply delete_take_drop].
  symmetry. by apply take_drop_middle.
Qed.

Lemma room_members_splice_other (sid roomId other : string) (s : State) :
  other ≠ roomId →
  room_members other (splice_member sid roomId s) = room_members other s.
Proof.
  intros Hne. unfold splice_member.
  destruct (roomUsers s !! roomId) as [room|]; [|done].
  destruct (findIndex sid room); [|done].
  unfold_state. by rewrite lookup_insert_ne.
Qed.

(** What [splice_member] leaves of a membership list was in it. *)
Lemma room_members_splice_sub (sid roomId r : string) (s : State) (m : Member) :
  m ∈ room_members r (splice_member sid roomId s) → m ∈ room_members r s.
Proof.
  unfold room_members. intros Hm.
  destruct (roomUsers (splice_member sid roomId s) !! r) as [room'|] eqn:Hr;
    [|by apply elem_of_nil in Hm].
  destruct (splice_member_roomUsers sid roomId s r room' Hr) as (room & -> & Hsub).
  simpl in *. by eapply elem_of_sublist.
Qed.


(** After [splice_member] a list without repetition no longer names the
    socket. *)
Lemma room_members_splice_removes (sid roomId : string) (s : State) (m : Member) :
  NoDup (socket_ids (room_members roomId s)) →
  m ∈ room_members roomId (splice_member sid roomId s) → mem_socketId m ≠ sid.
Proof.
  unfold splice_member, room_members.
  destruct (roomUsers s !! roomId) as [room|] eqn:Hroom;
    [|rewrite Hroom; intros _ Hin; by apply elem_of_nil in Hin].
  destruct (findIndex sid room) as [index|] eqn:Hidx.
  - destruct (findIndex_Some _ _ _ Hidx) as (u & Hu & Hsplit & Hdel).
    unfold_state. rewrite lookup_insert_eq. simpl. rewrite Hdel.
    rewrite Hsplit at 1. unfold socket_ids. rewrite fmap_app, fmap_cons, Hu.
    intros Hnd Hin Heq.
    apply NoDup_app in Hnd as (_ & Hleft & Hright).
    apply NoDup_cons in Hright as [Hright _].
    apply elem_of_app in Hin as [Hin|Hin].
    + apply (Hleft sid); [|left]. rewrite <- Heq. by apply list_elem_of_fmap_2.
    + apply Hright. rewrite <- Heq. by apply list_elem_of_fmap_2.
  - rewrite Hroom. simpl. intros _ Hin Heq.
    apply findIndex_None in Hidx. apply Hidx. unfold socket_ids.
    rewrite <- Heq. by apply list_elem_of_fmap_2.
Qed.

Lemma io_room_leave_other (sid roomId other : string) (s : State) :
  other ≠ roomId → io_room other (socket_leave sid roomId s) = io_room other s.
Proof. intros Hne. unfold_state. by rewrite lookup_alter_ne. Qed.

Lemma teardown_users (socket : Socket) (s : State) :
  users (teardown socket s).1 = delete (sock_id socket) (users s).
Proof. unfold teardown. by rewrite disconnect_users. Qed.

Lemma teardown_sockets (socket : Socket) (s : State) :
  sockets (teardown socket s).1 = delete (sock_id socket) (sockets s).
Proof. unfold teardown. by rewrite disconnect_sockets. Qed.

Lemma teardown_io_room (socket : Socket) (r : string) (s : State) :
  io_room r (teardown socket s).1 = io_room r s ∖ {[sock_id socket]}.
Proof.
  unfold teardown, io_room. rewrite disconnect_ioRooms.
  apply io_room_socket_close.
Qed.

(** The membership lists after a disconnection: the list of the room of the
    [users] entry is spliced, the others are as before. *)
Lemma teardown_room_members (socket : Socket) (r : string) (s : State) :
  room_members r (teardown socket s).1
  = match users s !! sock_id socket with
    | Some user => room_members r (splice_member (sock_id socket) (usr_roomId user) s)
    | None => room_members r s
    end.
Proof.
  unfold teardown, disconnect.
  replace (users (socket_close (sock_id socket) s)) with (users s) by done.
  destruct (users s !! sock_id socket) as [user|]; [|done].
  unfold room_members. cbn [fst]. unfold set_users. cbn [roomUsers].
  by rewrite (splice_member_roomUsers_ext (sock_id socket) (usr_roomId user)
                (socket_close (sock_id socket) s) s).
Qed.

Lemma leave_room_room_members (socket : Socket) (roomId userId username r : string)
    (s : State) :
  room_members r (leave_room socket roomId userId username s).1
  = match users s !! sock_id socket with
    | Some _ => room_members r (splice_member (sock_id socket) roomId s)
    | None => room_members r s
    end.
Proof.
  unfold leave_room. destruct (users s !! sock_id socket); [|done].
  unfold room_members. cbn [fst].
  by rewrite (splice_member_roomUsers_ext (sock_id socket) roomId
                (socket_leave (sock_id socket) roomId s) s).
Qed.


Section Invariants.

Variable jwt_verify : string → string → option Decoded.
Variable JWT_SECRET : string.

Local Abbreviation step := (server_step jwt_verify JWT_SECRET).
Local Abbreviation runs := (run jwt_verify JWT_SECRET).
Local Abbreviation allowed := (joins_allowed jwt_verify JWT_SECRET).

Lemma step_connect (sid : string) (token : option string) (env : Env) (s : State) :
  step (Connect sid token) env s = (s, [])
  ∨ ∃ socket, sockets s !! sid = None ∧ sock_id socket = sid
      ∧ step (Connect sid token) env s = (set_sockets <[sid := socket]> s, []).
Proof.
  unfold server_step.
  destruct (io_use jwt_verify JWT_SECRET sid token) as [err|socket] eqn:Huse; [by left|].
  destruct (sockets s !! sid) eqn:Hsid; [by left|].
  right. exists socket. split_and!; [done| |done].
  by eapply io_use_sock_id.
Qed.

Lemma step_disconnect (sid : string) (env : Env) (s : State) :
  step (Disconnect sid) env s
  = match sockets s !! sid with
    | Some socket => teardown socket s
    | None => (s, [])
    end.
Proof. reflexivity. Qed.

Lemma run_preserves (I : State → Prop) :
  (∀ i env s, sockets_keyed s → I s → I (step i env s).1) →
  ∀ tr s, sockets_keyed s → I s → I (runs tr s).1.
Proof.
  intros Hstep tr. induction tr as [|[i env] tr IH]; intros s Hk Hs; [done|].
  cbn [run].
  pose proof (Hstep i env s Hk Hs) as Hs1.
  pose proof (step_sockets_keyed jwt_verify JWT_SECRET i env s Hk) as Hk1.
  destruct (step i env s) as [s1 out1]. simpl in *.
  pose proof (IH s1 Hk1 Hs1) as Hs2.
  by destruct (runs tr s1) as [s2 out2].
Qed.

Lemma step_sessions_connected (i : Input) (env : Env) (s : State) :
  sockets_keyed s → sessions_connected s → sessions_connected (step i env s).1.
Proof.
  intros Hk Hinv. destruct i as [sid token|sid ev|sid|].
  - destruct (step_connect sid token env s) as [->|(socket & Hfresh & _ & ->)]; [done|].
    intros sid' user Hu. unfold_state.
    destruct (Hinv sid' user Hu) as (socket' & Hs' & Hid).
    exists socket'. split; [|done].
    rewrite lookup_insert_ne; [done|]. intros ->. congruence.
  - rewrite (step_from_client jwt_verify JWT_SECRET).
    destruct (sockets s !! sid) as [socket|] eqn:Hsock; [|done].
    pose proof (Hk _ _ Hsock) as Hid.
    destruct ev as [roomId|roomId text username userId|roomId userId username];
      unfold handle; intros sid' user.
    + rewrite join_room_users, join_room_sockets.
      destruct (decide (sock_id socket = sid')) as [<-|Hne].
      * rewrite lookup_insert_eq. intros [= <-]. exists socket. by rewrite Hid.
      * rewrite lookup_insert_ne by done. apply Hinv.
    + destruct (send_message_roomUsers socket roomId text username userId env s)
        as (_ & -> & -> & _). apply Hinv.
    + rewrite leave_room_users, leave_room_sockets. apply Hinv.
  - rewrite step_disconnect.
    destruct (sockets s !! sid) as [socket|] eqn:Hsock; [|done].
    intros sid' user. rewrite teardown_users, teardown_sockets.
    intros [Hne Hu]%lookup_delete_Some.
    rewrite lookup_delete_ne by done. by apply Hinv.
  - exact Hinv.
Qed.


Lemma membership_distinct_members (roomId : string) (s : State) :
  membership_distinct s → NoDup (socket_ids (room_members roomId s)).
Proof.
  intros Hinv. unfold room_members.
  destruct (roomUsers s !! roomId) as [room|] eqn:Hroom; simpl.
  - by eapply Hinv.
  - constructor.
Qed.

Lemma not_listed_anywhere (sid roomId : string) (s : State) :
  listed_anywhere sid roomId s = false →
  ∀ r m, m ∈ room_members r s → mem_socketId m ≠ sid.
Proof.
  unfold listed_anywhere. intros [Hhere Helse]%orb_false_iff r m Hm Heq.
  apply bool_decide_eq_false in Hhere.
  assert (sid ∈ socket_ids (room_members r s)) as Hin.
  { unfold socket_ids. rewrite <- Heq. by apply list_elem_of_fmap_2. }
  unfold room_members in Hin, Hm.
  destruct (roomUsers s !! r) as [room|] eqn:Hroom; [|by apply elem_of_nil in Hm].
  simpl in *. pose proof (not_listed_elsewhere _ _ _ Helse r room Hroom Hin) as ->.
  apply Hhere. unfold room_members. by rewrite Hroom.
Qed.

Lemma join_allowed_anywhere (i : Input) (s : State) :
  join_allowed listed_anywhere i s = true → join_allowed listed i s = true.
Proof.
  destruct i as [| sid [roomId| |] | |]; try done. unfold join_allowed, listed_anywhere.
  intros H%negb_true_iff. apply orb_false_iff in H as [-> _]. done.
Qed.

Lemma step_presence_accurate (i : Input) (env : Env) (s : State) :
  join_allowed listed_anywhere i s = true → sockets_keyed s →
  membership_distinct s ∧ presence_accurate s →
  membership_distinct (step i env s).1 ∧ presence_accurate (step i env s).1.
Proof.
  intros Hok Hk [Hnd Hinv].
  split; [apply step_membership_distinct; auto using join_allowed_anywhere|].
  destruct i as [sid token|sid ev|sid|].
  - destruct (step_connect sid token env s) as [->|(socket & Hfresh & _ & ->)]; [done|].
    intros r m Hm. destruct (Hinv r m Hm) as (Hs & Hu & Hio).
    split_and!; [|done|done]. unfold_state.
    rewrite lookup_insert_ne; [done|]. intros ->. congruence.
  - rewrite (step_from_client jwt_verify JWT_SECRET).
    destruct (sockets s !! sid) as [socket|] eqn:Hsock; [|done].
    pose proof (Hk _ _ Hsock) as Hid.
    destruct ev as [roomId|roomId text username userId|roomId userId username];
      unfold handle; intros r m.
    + unfold join_allowed in Hok. apply negb_true_iff in Hok.
      pose proof (not_listed_anywhere _ _ _ Hok) as Hfresh. rewrite <- Hid in Hfresh.
      rewrite join_room_users, join_room_sockets.
      destruct (decide (r = roomId)) as [->|Hne].
      * rewrite join_room_io_room, join_room_members.
        intros [Hm| ->%list_elem_of_singleton]%elem_of_app.
        -- destruct (Hinv roomId m Hm) as (Hs & Hu & Hio).
           rewrite lookup_insert_ne by (apply not_eq_sym; by eapply Hfresh).
           split_and!; [done|done|]. apply elem_of_union. by right.
        -- simpl. rewrite lookup_insert_eq. split_and!; [|done|].
           ++ clear Hfresh. destruct socket. simpl in *. by subst.
           ++ apply elem_of_union. left. by apply elem_of_singleton.
      * unfold io_room, room_members.
        rewrite join_room_ioRooms, join_room_roomUsers, !lookup_insert_ne by done.
        intros Hm. destruct (Hinv r m Hm) as (Hs & Hu & Hio).
        rewrite lookup_insert_ne by (apply not_eq_sym; by eapply Hfresh).
        split_and!; [done|done|]. by rewrite lookup_insert_ne.
    + unfold io_room, room_members.
      destruct (send_message_roomUsers socket roomId text username userId env s)
        as (-> & -> & -> & ->). apply Hinv.
    + rewrite leave_room_users, leave_room_sockets, leave_room_room_members.
      destruct (users s !! sock_id socket) as [user|] eqn:Huser.
      * intros Hm.
        destruct (Hinv r m (room_members_splice_sub _ _ _ _ _ Hm)) as (Hs & Hu & Hio).
        split_and!; [done|done|].
        destruct (decide (r = roomId)) as [->|Hne].
        -- rewrite (leave_room_io_room _ _ _ _ user) by done.
           apply elem_of_difference. split; [done|].
           intros Heq%elem_of_singleton. revert Heq.
           eapply room_members_splice_removes; [|exact Hm].
           by apply membership_distinct_members.
        -- unfold leave_room. rewrite Huser. cbn [fst].
           by rewrite io_room_splice_member, io_room_leave_other.
      * unfold leave_room. rewrite Huser. apply Hinv.
  - rewrite step_disconnect.
    destruct (sockets s !! sid) as [socket|] eqn:Hsock; [|done].
    intros r m. rewrite teardown_room_members, teardown_io_room.
    rewrite teardown_users, teardown_sockets. intros Hm.
    assert (m ∈ room_members r s ∧ mem_socketId m ≠ sock_id socket) as [Hm' Hne].
    { destruct (users s !! sock_id socket) as [user|] eqn:Huser.
      - pose proof (room_members_splice_sub _ _ _ _ _ Hm) as Hm'.
        split; [done|]. intros Heq.
        destruct (Hinv r m Hm') as (_ & Hu & _).
        rewrite Heq, Huser in Hu. injection Hu as ->. simpl in Hm.
        revert Heq. eapply room_members_splice_removes; [|exact Hm].
        by apply membership_distinct_members.
      - split; [done|]. intros Heq.
        destruct (Hinv r m Hm) as (_ & Hu & _). congruence. }
    destruct (Hinv r m Hm') as (Hs & Hu & Hio).
    rewrite !lookup_delete_ne by done. split_and!; [done|done|].
    apply elem_of_difference. split; [done|]. by intros ?%elem_of_singleton.
  - exact Hinv.
Qed.

Lemma step_stores (i : Input) (env : Env) (s : State) :
  messagesStore s `prefix_of` messagesStore (step i env s).1
  ∧ mongoMessages s `prefix_of` mongoMessages (step i env s).1.
Proof.
  destruct i as [sid token|sid ev|sid|].
  - by destruct (step_connect sid token env s) as [->|(socket & _ & _ & ->)].
  - rewrite (step_from_client jwt_verify JWT_SECRET).
    destruct (sockets s !! sid) as [socket|]; [|done].
    destruct ev as [roomId|roomId text username userId|roomId userId username];
      unfold handle.
    + by destruct (join_room_stores socket roomId env s) as (_ & -> & ->).
    + unfold send_message, persist.
      destruct (mongoConnected s); [destruct (env_save_ok env)|]; unfold_state;
        split; try done; by apply prefix_app_r.
    + unfold leave_room. destruct (users s !! sock_id socket); [|done]. cbn [fst].
      by destruct (splice_member_frame (sock_id socket) roomId
                     (socket_leave (sock_id socket) roomId s)) as (_ & -> & -> & _).
  - rewrite step_disconnect. destruct (sockets s !! sid) as [socket|]; [|done].
    unfold teardown, disconnect.
    destruct (users (socket_close (sock_id socket) s) !! sock_id socket) as [user|];
      [|done].
    cbn [fst]. unfold set_users. cbn [messagesStore mongoMessages].
    by destruct (splice_member_frame (sock_id socket) (usr_roomId user)
                   (socket_close (sock_id socket) s)) as (_ & -> & -> & _).
  - done.
Qed.

(** X10: at every point of every run from the initial state, each entry of
    [users] belongs to a socket that is connected and carries the [userId]
    and [username] of that socket's token; a closed connection leaves no
    entry behind. *)
Theorem sessions_connected_always (db : list Message) (tr : list (Input * Env)) :
  sessions_connected (runs tr (init_state db)).1.
Proof.
  apply (run_preserves sessions_connected).
  - apply step_sessions_connected.
  - apply init_state_keyed.
  - intros sid user H. unfold init_state in H. simpl in H. by rewrite lookup_empty in H.
Qed.


(** X12: in every run from the initial state in which a [join_room] arrives
    only while no membership list names the socket, every entry of every
    membership list is, at any point of the run, the entry of a connected
    socket: it carries the identity of the socket's token, the socket's
    entry in [users] names that room, and broadcasts to the room reach the
    socket. *)
Theorem presence_accurate_in_disciplined_runs
    (db : list Message) (tr pre : list (Input * Env)) :
  allowed listed_anywhere tr (init_state db) = true →
  pre `prefix_of` tr →
  presence_accurate (runs pre (init_state db)).1.
Proof.
  intros Hok Hpre.
  apply (run_invariant jwt_verify JWT_SECRET listed_anywhere
           (λ s, membership_distinct s ∧ presence_accurate s)).
  - apply step_presence_accurate.
  - by eapply joins_allowed_prefix.
  - apply init_state_keyed.
  - split.
    + intros r room H. unfold init_state in H. simpl in H. by rewrite lookup_empty in H.
    + intros r m H. unfold init_state, room_members in H. simpl in H.
      rewrite lookup_empty in H. by apply elem_of_nil in H.
Qed.

Lemma run_stores (tr : list (Input * Env)) (s : State) :
  messagesStore s `prefix_of` messagesStore (runs tr s).1
  ∧ mongoMessages s `prefix_of` mongoMessages (runs tr s).1.
Proof.
  revert s. induction tr as [|[i env] tr IH]; intros s; [done|].
  cbn [run]. pose proof (step_stores i env s) as [H1 H2].
  destruct (step i env s) as [s1 out1]. simpl in *.
  pose proof (IH s1) as [H3 H4].
  destruct (runs tr s1) as [s2 out2]. simpl in *.
  split; etrans; eauto.
Qed.

(** X13: no event takes a message out of a store or changes a stored
    message: after any run, each store begins with the messages it held
    before the run, in their order. *)
Theorem stores_only_grow (tr : list (Input * Env)) (s : State) :
  messagesStore s `prefix_of` messagesStore (runs tr s).1
  ∧ mongoMessages s `prefix_of` mongoMessages (runs tr s).1.
Proof. apply run_stores. Qed.

Lemma step_emits (i : Input) (env : Env) (s : State) :
  Forall history_private (step i env s).2
  ∧ Forall (broadcast_stored (step i env s).1) (step i env s).2.
Proof.
  destruct i as [sid token|sid ev|sid|].
  - by destruct (step_connect sid token env s) as [->|(socket & _ & _ & ->)].
  - rewrite (step_from_client jwt_verify JWT_SECRET).
    destruct (sockets s !! sid) as [socket|]; [|done].
    destruct ev as [roomId|roomId text username userId|roomId userId username];
      unfold handle.
    + rewrite join_room_emits. split; by repeat constructor.
    + unfold send_message, persist.
      destruct (mongoConnected s); [destruct (env_save_ok env)|]; unfold_state;
        [|done|]; (split; [by repeat constructor|]); apply Forall_singleton; simpl.
      * right. apply elem_of_app. right. left.
      * left. apply elem_of_app. right. left.
    + unfold leave_room. destruct (users s !! sock_id socket); [|done].
      split; by repeat constructor.
  - rewrite step_disconnect. destruct (sockets s !! sid) as [socket|]; [|done].
    unfold teardown, disconnect.
    destruct (users (socket_close (sock_id socket) s) !! sock_id socket) as [user|];
      [|done].
    split; by repeat constructor.
  - done.
Qed.

Lemma broadcast_stored_mono (s s' : State) (e : Emit) :
  messagesStore s `prefix_of` messagesStore s' →
  mongoMessages s `prefix_of` mongoMessages s' →
  broadcast_stored s e → broadcast_stored s' e.
Proof.
  intros [k1 H1] [k2 H2]. destruct e as [to p|room recipients p]; [done|].
  destruct p; try done. simpl. rewrite H1, H2.
  intros [H|H]; [left|right]; apply elem_of_app; by left.
Qed.

(** X23: in every run the history of a room is sent to one socket only:
    each [load_messages] is a private event, and nothing else is. *)
Theorem history_is_private (tr : list (Input * Env)) (s : State) :
  Forall history_private (runs tr s).2.
Proof.
  revert s. induction tr as [|[i env] tr IH]; intros s; [constructor|].
  cbn [run]. pose proof (step_emits i env s) as [H1 _].
  destruct (step i env s) as [s1 out1]. simpl in *.
  pose proof (IH s1) as H2.
  destruct (runs tr s1) as [s2 out2]. simpl in *.
  by apply Forall_app.
Qed.

(** X24: in every run, each message that was broadcast as
    [receive_message] is, with the room, text, time and identity of the
    broadcast, in a message store at the end of the run. *)
Theorem broadcast_messages_are_stored (tr : list (Input * Env)) (s : State) :
  Forall (broadcast_stored (runs tr s).1) (runs tr s).2.
Proof.
  revert s. induction tr as [|[i env] tr IH]; intros s; [constructor|].
  cbn [run]. pose proof (step_emits i env s) as [_ H1].
  destruct (step i env s) as [s1 out1]. simpl in *.
  pose proof (IH s1) as H2. pose proof (run_stores tr s1) as [H3 H4].
  destruct (runs tr s1) as [s2 out2]. simpl in *.
  apply Forall_app. split; [|done].
  eapply Forall_impl; [exact H1|]. intros e. by apply broadcast_stored_mono.
Qed.

End Invariants.

(** ** Bearer tokens *)

Lemma split_space_nonempty (s : string) : ∃ piece pieces, split_space s = piece :: pieces.
Proof.
  induction s as [|c s (piece & pieces & IH)]; simpl; [eauto|].
  destruct (decide (c = " "%char)); [eauto|]. rewrite IH. eauto.
Qed.

Lemma split_space_no_space (s : string) : no_space s = true → split_space s = [s].
Proof.
  induction s as [|c s IH]; simpl; [done|].
  intros [Hc Hs]%andb_true_iff. apply negb_true_iff, bool_decide_eq_false in Hc.
  destruct (decide (c = " "%char)); [done|]. by rewrite (IH Hs).
Qed.

Lemma split_space_app (a b : string) :
  no_space a = true → split_space (a +:+ " " +:+ b) = a :: split_space b.
Proof.
  induction a as [|c a IH]; simpl; [done|].
  intros [Hc Ha]%andb_true_iff. apply negb_true_iff, bool_decide_eq_false in Hc.
  destruct (decide (c = " "%char)); [done|]. by rewrite (IH Ha).
Qed.

Lemma header_token_second_word (scheme token : string) :
  no_space scheme = true → no_space token = true →
  header_token (Some (scheme +:+ " " +:+ token)) = Some token.
Proof.
  intros Hs Ht. unfold header_token.
  by rewrite (split_space_app _ _ Hs), (split_space_no_space _ Ht).
Qed.

Section Bearer.

Variable jwt_verify : string → string → option Decoded.
Variable JWT_SECRET : string.

(** X14: the HTTP middleware takes the second word of the [Authorization]
    header as the token, whatever the first word is, and then decides as
    the socket middleware does on that token: both refuse it, or both
    accept it with the same [userId] and [username]. *)
Theorem authMiddleware_agrees_with_io_use (scheme token sid : string) :
  no_space scheme = true → no_space token = true →
  match io_use jwt_verify JWT_SECRET sid (Some token) with
  | inl _ =>
      ∃ error, authMiddleware jwt_verify JWT_SECRET (Some (scheme +:+ " " +:+ token))
               = inl (401%nat, error)
  | inr socket =>
      ∃ decoded, authMiddleware jwt_verify JWT_SECRET (Some (scheme +:+ " " +:+ token))
                 = inr decoded
        ∧ socket = mkSocket sid (dec_userId decoded) (dec_username decoded)
  end.
Proof.
  intros Hs Ht. unfold authMiddleware, io_use.
  rewrite (header_token_second_word _ _ Hs Ht).
  destruct (decide (token = EmptyString)); [by eexists|].
  destruct (verifyToken jwt_verify JWT_SECRET token) as [decoded|]; [|by eexists].
  by exists decoded.
Qed.

(** X15: a request without an [Authorization] header, or with a header of
    a single word (a bare token, say), is answered 401 "No token provided"
    whatever the token is worth, and the history read behind the middleware
    returns no message. *)
Theorem authMiddleware_needs_two_words
    (authorization : option string) (roomId : string) (env : Env) (s : State) :
  match authorization with Some header => no_space header = true | None => True end →
  authMiddleware jwt_verify JWT_SECRET authorization = inl (401%nat, "No token provided")
  ∧ api_messages jwt_verify JWT_SECRET authorization roomId env s
    = inl (401%nat, "No token provided").
Proof.
  intros H.
  assert (authMiddleware jwt_verify JWT_SECRET authorization
          = inl (401%nat, "No token provided")) as Hauth.
  { unfold authMiddleware, header_token. destruct authorization as [header|]; [|done].
    by rewrite (split_space_no_space _ H). }
  split; [exact Hauth|]. unfold api_messages. by rewrite Hauth.
Qed.

End Bearer.

(** ** Registration and login *)

Lemma absent_false (x : option string) :
  absent x = false → ∃ v, x = Some v ∧ v ≠ EmptyString.
Proof.
  destruct x as [v|]; [|done]. simpl. intros H%bool_decide_eq_false. eauto.
Qed.

Lemma find_user_snoc (username : string) (usersStore : list StoredUser) (u : StoredUser) :
  find_user username usersStore = None → su_username u = username →
  find_user username (usersStore ++ [u]) = Some u.
Proof.
  unfold find_user. intros Hnone%fmap_None Hu.
  rewrite (list_find_app_r _ _ _ Hnone). simpl.
  destruct (decide (su_username u = username)); done.
Qed.

Section AccountsProps.

Variable jwt_verify : string → string → option Decoded.
Variable jwt_sign : Decoded → string → string → Z → string.
Variable bcrypt_hash : string → string → string.
Variable bcrypt_compare : string → string → bool.
Variable JWT_SECRET : string.
Variable JWT_EXPIRE : string.

Local Abbreviation begin := (register_begin jwt_sign bcrypt_hash JWT_SECRET JWT_EXPIRE).
Local Abbreviation finish := (register_finish jwt_sign JWT_SECRET JWT_EXPIRE).
Local Abbreviation log_in := (login jwt_sign bcrypt_compare JWT_SECRET JWT_EXPIRE).
Local Abbreviation token_of := (generateToken jwt_sign JWT_SECRET JWT_EXPIRE).

(** X16: a registration with a missing or empty username or password, a
    username of fewer than 3 characters or a password of fewer than 4 is
    answered with status 400, in either mode and before anything is looked
    up or stored. *)
Theorem register_rejects_invalid_input
    (mongo : bool) (body : Credentials) (env : AuthEnv) (usersStore : list StoredUser) :
  absent (cr_username body) = true ∨ absent (cr_password body) = true
  ∨ (String.length (default EmptyString (cr_username body)) < 3)%nat
  ∨ (String.length (default EmptyString (cr_password body)) < 4)%nat →
  ∃ error, begin mongo body env usersStore = Replied (ReplyError 400 error).
Proof.
  intros H. unfold register_begin.
  destruct (absent (cr_username body)); [by eexists|].
  destruct (absent (cr_password body)); [by eexists|]. simpl.
  destruct (String.length (default EmptyString (cr_username body)) <? 3)%nat eqn:Hu;
    [by eexists|].
  destruct (String.length (default EmptyString (cr_password body)) <? 4)%nat eqn:Hp;
    [by eexists|].
  apply Nat.ltb_ge in Hu, Hp. destruct H as [?|[?|[?|?]]]; try done; lia.
Qed.

(** X17: what an in-memory registration is about to push on [usersStore]
    is a user under the submitted name, of at least 3 characters, that no
    stored user bore when the request arrived, with the bcrypt hash of the
    submitted password, of at least 4 characters, in place of the
    password. *)
Theorem register_pending_is_valid
    (mongo : bool) (body : Credentials) (env : AuthEnv) (usersStore : list StoredUser)
    (newUser : StoredUser) :
  begin mongo body env usersStore = Pending newUser →
  mongo = false
  ∧ cr_username body = Some (su_username newUser)
  ∧ (3 ≤ String.length (su_username newUser))%nat
  ∧ find_user (su_username newUser) usersStore = None
  ∧ ∃ password, cr_password body = Some password
      ∧ (4 ≤ String.length password)%nat
      ∧ su_password newUser = bcrypt_hash password (ae_salt env).
Proof.
  unfold register_begin.
  destruct (absent (cr_username body)) eqn:Hau; [done|].
  destruct (absent (cr_password body)) eqn:Hap; [done|]. simpl.
  destruct (absent_false _ Hau) as (username & -> & _).
  destruct (absent_false _ Hap) as (password & -> & _). simpl.
  destruct (String.length username <? 3)%nat eqn:Hu; [done|].
  destruct (String.length password <? 4)%nat eqn:Hp; [done|].
  apply Nat.ltb_ge in Hu, Hp.
  destruct mongo.
  - destruct (ae_findOne env) as [?|[?|]]; [done|done|]. by destruct (ae_save env).
  - destruct (find_user username usersStore) eqn:Hfind; [done|].
    intros [= <-]. simpl. split_and!; try done. by exists password.
Qed.

Lemma register_pending_valid_aux
    (body : Credentials) (env : AuthEnv) (usersStore : list StoredUser)
    (newUser : StoredUser) :
  begin false body env usersStore = Pending newUser →
  cr_username body = Some (su_username newUser)
  ∧ find_user (su_username newUser) usersStore = None
  ∧ ∀ password, cr_password body = Some password →
      su_password newUser = bcrypt_hash password (ae_salt env).
Proof.
  unfold register_begin.
  destruct (absent (cr_username body)) eqn:Hau; [done|].
  destruct (absent (cr_password body)) eqn:Hap; [done|]. simpl.
  destruct (absent_false _ Hau) as (username & -> & _).
  destruct (absent_false _ Hap) as (password & -> & _). simpl.
  destruct (String.length username <? 3)%nat; [done|].
  destruct (String.length password <? 4)%nat; [done|].
  destruct (find_user username usersStore) eqn:Hfind; [done|].
  intros [= <-]. simpl. split_and!; try done. by intros ? [= <-].
Qed.

(** X18: in the in-memory mode, once a registration has completed with no
    other registration in between, a login with the same username and
    password succeeds with status 200 and names the user that was
    registered, provided [bcryptjs.compare] accepts the password against
    the hash [bcryptjs.hash] made of it. *)
Theorem register_then_login
    (body : Credentials) (env env' : AuthEnv) (usersStore : list StoredUser)
    (newUser : StoredUser) (password : string) :
  begin false body env usersStore = Pending newUser →
  cr_password body = Some password →
  bcrypt_compare password (bcrypt_hash password (ae_salt env)) = true →
  let registered := finish newUser env usersStore in
  registered.2 = ReplyAuth 201 (token_of (su_id newUser) (su_username newUser) (ae_now env))
                           (su_id newUser) (su_username newUser)
  ∧ log_in false body env' registered.1
    = ReplyAuth 200 (token_of (su_id newUser) (su_username newUser) (ae_now env'))
                (su_id newUser) (su_username newUser).
Proof.
  intros Hbegin Hpw Hcmp registered. split; [done|].
  destruct (register_pending_valid_aux body env usersStore newUser Hbegin)
    as (Hu & Hfind & Hhash).
  unfold login, registered, register_finish. cbn [fst].
  unfold register_begin in Hbegin.
  destruct (absent (cr_username body) || absent (cr_password body)); [done|].
  rewrite Hu, Hpw. simpl.
  rewrite (find_user_snoc _ _ newUser Hfind eq_refl).
  rewrite (Hhash password Hpw), Hcmp. done.
Qed.

End AccountsProps.

Section Tokens.

Variable jwt_verify : string → string → option Decoded.
Variable jwt_sign : Decoded → string → string → Z → string.
Variable bcrypt_compare : string → string → bool.
Variable JWT_SECRET : string.
Variable JWT_EXPIRE : string.

Local Abbreviation finish := (register_finish jwt_sign JWT_SECRET JWT_EXPIRE).
Local Abbreviation log_in := (login jwt_sign bcrypt_compare JWT_SECRET JWT_EXPIRE).
Local Abbreviation token_of := (generateToken jwt_sign JWT_SECRET JWT_EXPIRE).

Lemma login_success_aux
    (mongo : bool) (body : Credentials) (env : AuthEnv) (usersStore : list StoredUser)
    (status : nat) (token id username : string) :
  log_in mongo body env usersStore = ReplyAuth status token id username →
  token = token_of id username (ae_now env).
Proof.
  unfold login.
  destruct (absent (cr_username body) || absent (cr_password body)); [done|].
  destruct (if mongo then ae_findOne env
            else inr (find_user (default EmptyString (cr_username body)) usersStore))
    as [?|[user|]]; [done| |done].
  destruct (bcrypt_compare _ _); [|done]. by intros [= <- <- <- <-].
Qed.

(** X19: a login is answered with a token only with status 200, for the
    submitted username, when a user of that name was found (in [usersStore]
    or by [User.findOne]) and [bcryptjs.compare] accepted the submitted
    password against its stored hash; the token is the one [generateToken]
    makes for the id of that user. *)
Theorem login_success_needs_matching_user
    (mongo : bool) (body : Credentials) (env : AuthEnv) (usersStore : list StoredUser)
    (status : nat) (token id username : string) :
  log_in mongo body env usersStore = ReplyAuth status token id username →
  status = 200%nat
  ∧ cr_username body = Some username
  ∧ ∃ user password,
      (if mongo then ae_findOne env = inr (Some user)
       else find_user username usersStore = Some user)
      ∧ cr_password body = Some password
      ∧ bcrypt_compare password (su_password user) = true
      ∧ id = su_id user
      ∧ token = token_of id username (ae_now env).
Proof.
  unfold login.
  destruct (absent (cr_username body)) eqn:Hau; [done|].
  destruct (absent (cr_password body)) eqn:Hap; [done|]. simpl.
  destruct (absent_false _ Hau) as (name & -> & _).
  destruct (absent_false _ Hap) as (password & -> & _). simpl.
  destruct mongo.
  - destruct (ae_findOne env) as [?|[user|]]; [done| |done].
    destruct (bcrypt_compare password (su_password user)) eqn:Hcmp; [|done].
    intros [= <- <- <- <-]. split_and!; try done. by exists user, password.
  - destruct (find_user name usersStore) as [user|] eqn:Hfind; [|done].
    destruct (bcrypt_compare password (su_password user)) eqn:Hcmp; [|done].
    intros [= <- <- <- <-]. split_and!; try done. by exists user, password.
Qed.

(** X20: the token that a login, or a completed registration, answers
    with opens a socket under the id and username of that answer: provided
    [jwt.verify] gives back the payload that [jwt.sign] signed for them, and
    the token is not empty, the socket middleware admits the connection and
    a connection under a new socket id is registered with that identity. *)
Theorem issued_token_opens_socket
    (mongo : bool) (body : Credentials) (env : AuthEnv) (env' : Env)
    (usersStore : list StoredUser) (newUser : StoredUser)
    (reply : Reply) (status : nat) (token id username sid : string) (s : State) :
  reply = log_in mongo body env usersStore ∨ reply = (finish newUser env usersStore).2 →
  reply = ReplyAuth status token id username →
  (∀ now, jwt_sign (mkDecoded id username) JWT_SECRET JWT_EXPIRE now ≠ EmptyString
          ∧ jwt_verify (jwt_sign (mkDecoded id username) JWT_SECRET JWT_EXPIRE now)
                       JWT_SECRET = Some (mkDecoded id username)) →
  sockets s !! sid = None →
  io_use jwt_verify JWT_SECRET sid (Some token) = inr (mkSocket sid id username)
  ∧ sockets (server_step jwt_verify JWT_SECRET (Connect sid (Some token)) env' s).1 !! sid
    = Some (mkSocket sid id username).
Proof.
  intros Hfrom Hreply Hjwt Hfresh.
  assert (token = token_of id username (ae_now env)) as ->.
  { destruct Hfrom as [->| ->].
    - by destruct (login_success_aux mongo body env usersStore _ _ _ _ Hreply).
    - unfold register_finish in Hreply. simpl in Hreply. by injection Hreply as _ <- <- <-. }
  destruct (Hjwt (ae_now env)) as [Hne Hverify].
  assert (io_use jwt_verify JWT_SECRET sid
            (Some (token_of id username (ae_now env))) = inr (mkSocket sid id username))
    as Huse.
  { unfold io_use, verifyToken, generateToken in *.
    destruct (decide (jwt_sign (mkDecoded id username) JWT_SECRET JWT_EXPIRE (ae_now env)
                      = EmptyString)); [done|].
    by rewrite Hverify. }
  split; [exact Huse|].
  unfold server_step. rewrite Huse, Hfresh. unfold_state. apply lookup_insert_eq.
Qed.

End Tokens.

(** ** Escaping of message text *)

Lemma chars_app (a b : string) : chars (a +:+ b) = chars a ++ chars b.
Proof. induction a as [|c a IH]; simpl; [done|]. by rewrite IH. Qed.

Lemma escape_char_no_markup (c x : ascii) :
  x ∈ chars (escape_char c) →
  x ≠ "<"%char ∧ x ≠ ">"%char ∧ x ≠ "034"%char ∧ x ≠ "'"%char.
Proof.
  unfold escape_char. repeat case_decide; simpl; intros Hx;
    repeat (apply elem_of_cons in Hx as [->|Hx]; [done|]);
    by apply elem_of_nil in Hx.
Qed.

(** X21: the text that [escapeHtml] returns holds none of the characters
    less-than, greater-than, double quote and apostrophe. *)
Theorem escapeHtml_no_markup (text : string) (x : ascii) :
  x ∈ chars (escapeHtml text) →
  x ≠ "<"%char ∧ x ≠ ">"%char ∧ x ≠ "034"%char ∧ x ≠ "'"%char.
Proof.
  induction text as [|c text IH]; simpl.
  - intros Hx. by apply elem_of_nil in Hx.
  - rewrite chars_app. intros [Hx|Hx]%elem_of_app; [|by apply IH].
    by eapply escape_char_no_markup.
Qed.

(** X22: [escapeHtml] loses nothing: two texts with the same escaped form
    are the same text. *)
Theorem escapeHtml_injective (a b : string) :
  escapeHtml a = escapeHtml b → a = b.
Proof.
  revert b. induction a as [|c a IH]; intros [|d b]; simpl.
  - done.
  - unfold escape_char. repeat case_decide; discriminate.
  - unfold escape_char. repeat case_decide; discriminate.
  - unfold escape_char. repeat case_decide; subst; simpl; intros Heq;
      try discriminate Heq; simplify_eq; f_equal; auto.
Qed.

(** ** Joining without leaving *)

(** X25: a socket that joins a second room without leaving the first
    stays in the membership list of the first when its connection closes:
    the disconnection removes its entry from [users] and from the table of
    sockets, and splices only the list of the room joined last. *)
Theorem join_without_leave_outlives_disconnect
    (socket : Socket) (first second : string) (env : Env) (s : State) :
  first ≠ second →
  sock_id socket ∈ socket_ids (room_members first s) →
  let closed := (teardown socket (join_room socket second env s).1).1 in
  users closed !! sock_id socket = None
  ∧ sockets closed !! sock_id socket = None
  ∧ room_members first closed = room_members first s
  ∧ sock_id socket ∈ socket_ids (room_members first closed).
Proof.
  intros Hne Hin closed.
  assert (room_members first closed = room_members first s) as Hsame.
  { unfold closed. rewrite teardown_room_members, join_room_users, lookup_insert_eq.
    cbn [usr_roomId]. rewrite room_members_splice_other by done.
    unfold room_members. by rewrite join_room_roomUsers, lookup_insert_ne. }
  unfold closed at 1 2. rewrite teardown_users, teardown_sockets, !lookup_delete_eq.
  split_and!; [done|done|exact Hsame|by rewrite Hsame].
Qed.

(** ** The further properties at concrete inputs *)

Lemma history_of_room_only_witness :
  let m := mkMessage "m60" "1" "alice" "u1" "hello" 60 in
  (m ∈ join_history "1" env0 memory_sixty ∨ m ∈ get_messages "1" env0 memory_sixty)
  ∧ msg_roomId m = "1" ∧ m ∈ store_in_use memory_sixty.
Proof.
  intros m.
  assert (m ∈ join_history "1" env0 memory_sixty) as Hm.
  { apply (list_elem_of_lookup_2 _ 49%nat). vm_compute. reflexivity. }
  split; [by left|].
  exact (history_of_room_only "1" env0 memory_sixty m (or_introl Hm)).
Defined.

Lemma history_complete_up_to_50_witness :
  (length (of_room "1" (store_in_use memory_three)) ≤ 50)%nat
  ∧ join_history "1" env0 memory_three = take 3 sixty.
Proof.
  assert (length (of_room "1" (store_in_use memory_three)) ≤ 50)%nat as Hlen.
  { vm_compute. lia. }
  split; [exact Hlen|].
  rewrite (proj1 (history_complete_up_to_50 "1" env0 memory_three Hlen (λ _, eq_refl))).
  vm_compute. reflexivity.
Defined.

Lemma sent_message_closes_history_witness :
  mongoConnected memory_sixty = false
  ∧ StronglySorted Z.le (timestamps (messagesStore memory_sixty))
  ∧ Forall (λ m, (msg_timestamp m ≤ env_now env0)%Z) (messagesStore memory_sixty)
  ∧ last (join_history "1" env0 (send_message bob "1" "hi" "bob" "u2" env0 memory_sixty).1)
    = Some (mkMessage "msg_k3x9a" "1" "bob" "u2" "hi" 1000).
Proof.
  assert (StronglySorted Z.le (timestamps (messagesStore memory_sixty))) as Hs.
  { apply (bool_decide_unpack _). vm_compute. exact I. }
  assert (Forall (λ m, (msg_timestamp m ≤ env_now env0)%Z) (messagesStore memory_sixty))
    as Hnow.
  { apply (bool_decide_unpack _). vm_compute. exact I. }
  split_and!; [reflexivity|exact Hs|exact Hnow|].
  exact (sent_message_closes_history bob "1" "hi" "bob" "u2" env0 env0 memory_sixty
           eq_refl Hs Hnow).
Defined.

Lemma send_message_keeps_other_histories_witness :
  "1" ≠ "2"
  ∧ join_history "1" env0 (send_message bob "2" "hi" "bob" "u2" env0 memory_sixty).1
    = join_history "1" env0 memory_sixty.
Proof.
  assert ("1" ≠ "2") as Hne by discriminate.
  split; [exact Hne|].
  exact (send_message_keeps_other_histories bob "2" "1" "hi" "bob" "u2" env0 env0
           memory_sixty Hne).
Defined.

Lemma join_room_effect_witness :
  let s := (demo_run bob_in_1).1 in
  mongoConnected s = false
  ∧ room_members "1" (join_room alice "1" env0 s).1
    = room_members "1" s ++ [mkMember "u1" "alice" "s1"].
Proof.
  intros s.
  assert (mongoConnected s = false) as Hmem by (vm_compute; reflexivity).
  split; [exact Hmem|].
  exact (proj1 (join_room_effect alice "1" env0 s Hmem)).
Defined.

Lemma join_then_leave_restores_room_witness :
  let s := (demo_run bob_in_1).1 in
  (sock_id alice ∉ socket_ids (room_members "1" s))
  ∧ room_members "1" (leave_room alice "1" "u1" "alice" (join_room alice "1" env0 s).1).1
    = room_members "1" s.
Proof.
  intros s.
  assert (sock_id alice ∉ socket_ids (room_members "1" s)) as Hout.
  { apply (bool_decide_eq_false_1 (sock_id alice ∈ socket_ids (room_members "1" s))).
    vm_compute. reflexivity. }
  split; [exact Hout|].
  exact (proj1 (join_then_leave_restores_room alice "1" "u1" "alice" env0 s Hout)).
Defined.

Lemma leave_then_disconnect_notifies_twice_witness :
  let s := (demo_run both_in_1).1 in
  let user := mkUserRec "u1" "alice" "1" in
  let left := leave_room alice "1" "u1" "alice" s in
  users s !! sock_id alice = Some user
  ∧ left.2 = [RoomEmit "1" (io_room "1" s ∖ {["s1"]})
                (user_left "alice" "u1" (room_members "1" left.1))]
  ∧ (teardown alice left.1).2
    = [RoomEmit "1" (io_room "1" s ∖ {["s1"]})
         (user_left "alice" "u1" (room_members "1" (teardown alice left.1).1))].
Proof.
  intros s user left.
  assert (users s !! sock_id alice = Some user) as Hu by (vm_compute; reflexivity).
  split; [exact Hu|].
  exact (proj2 (leave_then_disconnect_notifies_twice alice user "u1" "alice" s Hu)).
Defined.

Lemma presence_accurate_in_disciplined_runs_witness :
  joins_allowed demo_verify demo_secret listed_anywhere polite_session (init_state []) = true
  ∧ polite_session `prefix_of` polite_session
  ∧ presence_accurate (demo_run polite_session).1.
Proof.
  assert (joins_allowed demo_verify demo_secret listed_anywhere polite_session
            (init_state []) = true) as Hok by (vm_compute; reflexivity).
  split_and!; [exact Hok|reflexivity|].
  exact (presence_accurate_in_disciplined_runs demo_verify demo_secret []
           polite_session polite_session Hok (reflexivity _)).
Defined.

Lemma authMiddleware_agrees_with_io_use_witness :
  no_space "Bearer" = true ∧ no_space "tok-alice" = true
  ∧ ∃ decoded,
      authMiddleware demo_verify demo_secret (Some "Bearer tok-alice") = inr decoded
      ∧ alice = mkSocket "s1" (dec_userId decoded) (dec_username decoded).
Proof.
  split_and!; [reflexivity|reflexivity|].
  exact (authMiddleware_agrees_with_io_use demo_verify demo_secret
           "Bearer" "tok-alice" "s1" eq_refl eq_refl).
Defined.

Lemma authMiddleware_needs_two_words_witness :
  no_space "tok-alice" = true
  ∧ authMiddleware demo_verify demo_secret (Some "tok-alice")
    = inl (401%nat, "No token provided")
  ∧ api_messages demo_verify demo_secret (Some "tok-alice") "1" env0 memory_sixty
    = inl (401%nat, "No token provided").
Proof.
  split; [reflexivity|].
  exact (authMiddleware_needs_two_words demo_verify demo_secret (Some "tok-alice")
           "1" env0 memory_sixty eq_refl).
Defined.

Lemma register_rejects_invalid_input_witness :
  let body := mkCredentials (Some "al") (Some "hunter2") in
  (String.length (default EmptyString (cr_username body)) < 3)%nat
  ∧ ∃ error, register_begin demo_sign demo_hash demo_secret "7d" false body auth_env0 []
             = Replied (ReplyError 400 error).
Proof.
  intros body.
  assert (String.length (default EmptyString (cr_username body)) < 3)%nat as Hshort.
  { simpl. lia. }
  split; [exact Hshort|].
  exact (register_rejects_invalid_input demo_sign demo_hash demo_secret "7d" false body
           auth_env0 [] (or_intror (or_intror (or_introl Hshort)))).
Defined.

Lemma register_pending_is_valid_witness :
  let newUser := mkStoredUser "user_k3x9a" "bob" (demo_hash "hunter2" "salt") 500 in
  register_begin demo_sign demo_hash demo_secret "7d" false bob_body auth_env0 [carol_stored]
    = Pending newUser
  ∧ find_user (su_username newUser) [carol_stored] = None.
Proof.
  intros newUser.
  assert (register_begin demo_sign demo_hash demo_secret "7d" false bob_body auth_env0
            [carol_stored] = Pending newUser) as Hbegin by (vm_compute; reflexivity).
  split; [exact Hbegin|].
  exact (proj1 (proj2 (proj2 (proj2
           (register_pending_is_valid demo_sign demo_hash demo_secret "7d" false bob_body
              auth_env0 [carol_stored] newUser Hbegin))))).
Defined.

Lemma register_then_login_witness :
  let newUser := mkStoredUser "user_k3x9a" "bob" (demo_hash "hunter2" "salt") 500 in
  register_begin demo_sign demo_hash demo_secret "7d" false bob_body auth_env0 [carol_stored]
    = Pending newUser
  ∧ demo_compare "hunter2" (demo_hash "hunter2" (ae_salt auth_env0)) = true
  ∧ login demo_sign demo_compare demo_secret "7d" false bob_body auth_env0
          [carol_stored; newUser]
    = ReplyAuth 200 "tok-other" "user_k3x9a" "bob".
Proof.
  intros newUser.
  assert (register_begin demo_sign demo_hash demo_secret "7d" false bob_body auth_env0
            [carol_stored] = Pending newUser) as Hbegin by (vm_compute; reflexivity).
  assert (demo_compare "hunter2" (demo_hash "hunter2" (ae_salt auth_env0)) = true) as Hcmp
    by (vm_compute; reflexivity).
  split_and!; [exact Hbegin|exact Hcmp|].
  exact (proj2 (register_then_login demo_sign demo_hash demo_compare demo_secret "7d"
                  bob_body auth_env0 auth_env0 [carol_stored] newUser "hunter2"
                  Hbegin eq_refl Hcmp)).
Defined.

Lemma login_success_needs_matching_user_witness :
  login demo_sign demo_compare demo_secret "7d" false bob_body auth_env0
        [carol_stored; bob_stored]
    = ReplyAuth 200 "tok-bob" "u2" "bob"
  ∧ cr_username bob_body = Some "bob".
Proof.
  assert (login demo_sign demo_compare demo_secret "7d" false bob_body auth_env0
            [carol_stored; bob_stored] = ReplyAuth 200 "tok-bob" "u2" "bob") as Hlogin
    by (vm_compute; reflexivity).
  split; [exact Hlogin|].
  exact (proj1 (proj2 (login_success_needs_matching_user demo_sign demo_compare
                         demo_secret "7d" false bob_body auth_env0
                         [carol_stored; bob_stored] 200 "tok-bob" "u2" "bob" Hlogin))).
Defined.

Lemma issued_token_opens_socket_witness :
  let reply := login demo_sign demo_compare demo_secret "7d" false bob_body auth_env0
                     [carol_stored; bob_stored] in
  reply = ReplyAuth 200 "tok-bob" "u2" "bob"
  ∧ sockets (init_state []) !! "s2" = None
  ∧ sockets (server_step demo_verify demo_secret (Connect "s2" (Some "tok-bob")) env0
               (init_state [])).1 !! "s2" = Some bob.
Proof.
  intros reply.
  assert (reply = ReplyAuth 200 "tok-bob" "u2" "bob") as Hreply by (vm_compute; reflexivity).
  assert (sockets (init_state []) !! "s2" = None) as Hfresh by reflexivity.
  assert (∀ now, demo_sign (mkDecoded "u2" "bob") demo_secret "7d" now ≠ EmptyString
                 ∧ demo_verify (demo_sign (mkDecoded "u2" "bob") demo_secret "7d" now)
                               demo_secret = Some (mkDecoded "u2" "bob")) as Hjwt.
  { intros now. split; [discriminate|reflexivity]. }
  split_and!; [exact Hreply|exact Hfresh|].
  exact (proj2 (issued_token_opens_socket demo_verify demo_sign demo_compare demo_secret
                  "7d" false bob_body auth_env0 env0 [carol_stored; bob_stored] bob_stored
                  reply 200 "tok-bob" "u2" "bob" "s2" (init_state [])
                  (or_introl eq_refl) Hreply Hjwt Hfresh)).
Defined.

Lemma escapeHtml_no_markup_witness :
  escapeHtml "<b>" = "&lt;b&gt;"
  ∧ ("&"%char ∈ chars (escapeHtml "<b>"))
  ∧ "&"%char ≠ "<"%char.
Proof.
  assert ("&"%char ∈ chars (escapeHtml "<b>")) as Hin by (simpl; left).
  split_and!; [reflexivity|exact Hin|].
  exact (proj1 (escapeHtml_no_markup "<b>" "&"%char Hin)).
Defined.

Lemma escapeHtml_injective_witness :
  escapeHtml "a&b" = escapeHtml "a&b" ∧ "a&b" = "a&b".
Proof.
  split; [reflexivity|].
  exact (escapeHtml_injective "a&b" "a&b" eq_refl).
Defined.

Lemma join_without_leave_outlives_disconnect_witness :
  let s := (demo_run both_in_1).1 in
  "1" ≠ "2"
  ∧ (sock_id alice ∈ socket_ids (room_members "1" s))
  ∧ sock_id alice
    ∈ socket_ids (room_members "1" (teardown alice (join_room alice "2" env0 s).1).1).
Proof.
  intros s.
  assert ("1" ≠ "2") as Hne by discriminate.
  assert (sock_id alice ∈ socket_ids (room_members "1" s)) as Hin.
  { apply (bool_decide_unpack _). vm_compute. exact I. }
  split_and!; [exact Hne|exact Hin|].
  exact (proj2 (proj2 (proj2
           (join_without_leave_outlives_disconnect alice "1" "2" env0 s Hne Hin)))).
Defined.
